(** * blnk-go: the HTTP call layer of the client

    A shallow embedding of the client of package [blnkgo] (construction of
    the client, request construction, the retry loop and response decoding)
    together with the properties of the call layer that the specification
    states.

    Go values are modelled as follows.
    - A pointer that may be nil is an [option]; dereferencing [None] is the
      runtime panic [NilDereference]. An interface value (the logger) and a
      function value (a client option) may be nil as well: they are
      [option]s, and a call on [None] is the same panic.
    - A Go result pair [(value, error)] is a [result]; a function that can
      also panic returns an [outcome].
    - [map[string][]string] ([http.Header], [url.Values]) is a
      [gmap string (list string)].
    - The packages the client imports (net/url, net/http, encoding/json,
      go-querystring) are not part of the repository.  What the client
      observes of net/url and net/http is modelled in the modules [url] and
      [http]; the reflection based encoders and the validation of the
      address text are operations of the class [GoLib]. *)

From Stdlib Require Import ZArith String Ascii List Bool Lia.
From stdpp Require Import base option list gmap strings sorting pretty.

Local Open Scope string_scope.
Local Open Scope Z_scope.

(** ** Errors, results and panics *)

Inductive error : Type :=
| errors_New (text : string)
| lib_error (pkg : string) (text : string)
| status_error (code : Z) (payload : option string).

Inductive result (A : Type) : Type :=
| Ok (a : A)
| Err (e : error).
Arguments Ok {A} a.
Arguments Err {A} e.

Inductive panic_value : Type :=
| PanicError (e : error)
| NilDereference.

Inductive outcome (A : Type) : Type :=
| Returns (a : A)
| Panics (p : panic_value).
Arguments Returns {A} a.
Arguments Panics {A} p.

Definition result_bind {A B} (k : A -> result B) (r : result A) : result B :=
  match r with
  | Ok a => k a
  | Err e => Err e
  end.

Definition outcome_bind {A B} (k : A -> outcome B) (o : outcome A) : outcome B :=
  match o with
  | Returns a => k a
  | Panics p => Panics p
  end.

(** [p.f] on a pointer [p]. *)
Definition deref {A} (p : option A) : outcome A :=
  match p with
  | Some a => Returns a
  | None => Panics NilDereference
  end.

#[global] Instance result_mbind : MBind result := @result_bind.
#[global] Instance result_mret : MRet result := @Ok.
#[global] Instance outcome_mbind : MBind outcome := @outcome_bind.
#[global] Instance outcome_mret : MRet outcome := @Returns.

(** ** Strings as byte sequences *)

Fixpoint contains_byte (c : ascii) (s : string) : bool :=
  match s with
  | EmptyString => false
  | String a s' => Ascii.eqb a c || contains_byte c s'
  end.

(** [strings.Cut(s, sep)] for a one byte separator: the text before the
    first [sep] and the text after it. *)
Fixpoint cut (sep : ascii) (s : string) : string * string :=
  match s with
  | EmptyString => (EmptyString, EmptyString)
  | String a s' =>
      if Ascii.eqb a sep then (EmptyString, s')
      else let (before, after) := cut sep s' in (String a before, after)
  end.

Fixpoint count_byte (c : ascii) (s : string) : nat :=
  match s with
  | EmptyString => O
  | String a s' => (if Ascii.eqb a c then 1 else 0)%nat + count_byte c s'
  end.

Fixpoint has_suffix_byte (c : ascii) (s : string) : bool :=
  match s with
  | EmptyString => false
  | String a EmptyString => Ascii.eqb a c
  | String _ s' => has_suffix_byte c s'
  end.

Fixpoint drop_last (s : string) : string :=
  match s with
  | EmptyString => EmptyString
  | String _ EmptyString => EmptyString
  | String a s' => String a (drop_last s')
  end.

Definition byte_between (lo hi c : ascii) : bool :=
  (N.leb (N_of_ascii lo) (N_of_ascii c) && N.leb (N_of_ascii c) (N_of_ascii hi))%bool.

Definition is_alnum (c : ascii) : bool :=
  byte_between "a" "z" c || byte_between "A" "Z" c || byte_between "0" "9" c.

(** ** The operations taken from the imported packages *)

Abbreviation Values := (gmap string (list string)).

Class GoLib : Type := {
  (** the dynamic value held by a non-nil [interface{}] payload *)
  Payload : Type;
  (** the value the caller's [resBody] pointer refers to *)
  Target : Type;
  (** [query.Values(opt)] of go-querystring *)
  query_Values : Payload -> result Values;
  (** the JSON text [encoding/json] produces for a value *)
  json_Marshal : Payload -> result string;
  (** [json.NewDecoder(body).Decode(v)]: the target after the call (the
      decoder may have written part of it when it fails) and the error *)
  json_Decode : string -> Target -> Target * option error;
  (** the error payload read from the body of a rejected response, when
      it can be parsed *)
  json_ErrorPayload : string -> option string;
  (** net/url's checks of the text before the query (scheme, authority and
      path) and of the fragment; the model keeps both texts as they are *)
  url_check : string -> string -> option error
}.

(** ** net/url, as far as the client observes it *)

Module url.

(** The text up to the query is kept in [Head]; [RawQuery], [ForceQuery] and
    [Fragment] are the fields of [url.URL]. The escaping of path and
    fragment is not modelled. *)
Record URL : Type := {
  Head : string;
  ForceQuery : bool;
  RawQuery : string;
  Fragment : string
}.

Definition set_RawQuery (q : string) (u : URL) : URL :=
  {| Head := Head u; ForceQuery := ForceQuery u; RawQuery := q;
     Fragment := Fragment u |}.

(** The method [String] of [URL]. *)
Definition URL_String (u : URL) : string :=
  Head u
  +:+ (if ForceQuery u || negb (String.eqb (RawQuery u) "")
       then "?" +:+ RawQuery u else "")
  +:+ (if negb (String.eqb (Fragment u) "") then "#" +:+ Fragment u else "").

(** The part of [URL_String u] before the fragment. *)
Definition before_fragment (u : URL) : string :=
  Head u +:+
  (if ForceQuery u || negb (String.eqb (RawQuery u) "")
   then "?" +:+ RawQuery u else "").

Definition is_CTL (c : ascii) : bool :=
  (N.ltb (N_of_ascii c) 32 || N.eqb (N_of_ascii c) 127)%bool.

Fixpoint stringContainsCTLByte (s : string) : bool :=
  match s with
  | EmptyString => false
  | String a s' => is_CTL a || stringContainsCTLByte s'
  end.

(** [url.Parse]: the fragment is cut at the first '#', then the query at the
    first '?'; a lone trailing '?' sets [ForceQuery]. *)
Definition Parse `{GoLib} (rawURL : string) : result URL :=
  let (u, frag) := cut "#" rawURL in
  if stringContainsCTLByte u
  then Err (lib_error "net/url" "invalid control character in URL")
  else
    let '(rest, force, query) :=
      if has_suffix_byte "?" u && Nat.eqb (count_byte "?" u) 1
      then (drop_last u, true, "")
      else let (rest, query) := cut "?" u in (rest, false, query) in
    match url_check rest frag with
    | Some e => Err e
    | None =>
        Ok {| Head := rest; ForceQuery := force; RawQuery := query;
              Fragment := frag |}
    end.

(** [shouldEscape(c, encodeQueryComponent)] *)
Definition shouldEscape (c : ascii) : bool :=
  negb (is_alnum c
        || Ascii.eqb c "-" || Ascii.eqb c "_" || Ascii.eqb c "."
        || Ascii.eqb c "~").

Definition upperhex (n : N) : ascii :=
  if N.ltb n 10 then ascii_of_N (48 + n) else ascii_of_N (55 + n).

Definition escape_byte (c : ascii) : string :=
  if Ascii.eqb c " " then "+"
  else if shouldEscape c
       then String "%" (String (upperhex (N.div (N_of_ascii c) 16))
                          (String (upperhex (N.modulo (N_of_ascii c) 16))
                             EmptyString))
       else String c EmptyString.

(** [url.QueryEscape] *)
Fixpoint QueryEscape (s : string) : string :=
  match s with
  | EmptyString => EmptyString
  | String c s' => escape_byte c +:+ QueryEscape s'
  end.

(** One [key=value] pair is written to the buffer, after a '&' when the
    buffer already holds something. *)
Definition write_pair (keyEscaped : string) (buf v : string) : string :=
  (if String.eqb buf "" then buf else buf +:+ "&")
  +:+ keyEscaped +:+ "=" +:+ QueryEscape v.

Definition write_key (v : Values) (buf k : string) : string :=
  fold_left (write_pair (QueryEscape k)) (default [] (v !! k)) buf.

(** [Values.Encode]: the keys in sorted order, every value of a key in
    turn. *)
Definition Encode (v : Values) : string :=
  fold_left (write_key v) (merge_sort String.le (fst <$> map_to_list v)) "".

End url.

(** ** net/http requests *)

Module http.

Definition MethodGet : string := "GET".

Abbreviation Header := (gmap string (list string)).

Record Request : Type := {
  Method : string;
  URL : url.URL;
  Header_ : Header;
  Body : option string
}.

(** [Header.Add]: the value is appended to the values of the key. Both keys
    the client adds are already in canonical form. *)
Definition Header_Add (key value : string) (h : Header) : Header :=
  <[key := (default [] (h !! key) ++ [value])%list]> h.

Definition add_header (key value : string) (r : Request) : Request :=
  {| Method := Method r; URL := URL r;
     Header_ := Header_Add key value (Header_ r); Body := Body r |}.

Definition isTokenByte (c : ascii) : bool :=
  is_alnum c || contains_byte c "!#$%&'*+-.^_`|~".

Fixpoint all_bytes (p : ascii -> bool) (s : string) : bool :=
  match s with
  | EmptyString => true
  | String a s' => p a && all_bytes p s'
  end.

Definition validMethod (method : string) : bool :=
  negb (String.eqb method "") && all_bytes isTokenByte method.

(** [http.NewRequest(method, url, body)]: an empty method means GET, the
    address is parsed again, the header starts empty and a nil [body]
    leaves [Body] nil. *)
Definition NewRequest `{GoLib} (method urlStr : string) (body : option string)
  : result Request :=
  let method := if String.eqb method "" then "GET" else method in
  if negb (validMethod method)
  then Err (lib_error "net/http" "invalid method")
  else
    match url.Parse urlStr with
    | Err e => Err e
    | Ok u => Ok {| Method := method; URL := u; Header_ := ∅; Body := body |}
    end.

End http.

Module time.
(** [time.Duration] counts nanoseconds. *)
Definition Second : Z := 1000000000.
End time.

(** ** The client and its construction *)

(** The logging capability is an interface declared outside the call layer;
    of a logger only the identity is kept. The field of [Options] holds an
    interface value, which may be nil. *)
Inductive Logger : Type :=
| NewDefaultLogger
| CustomLogger (name : string).

Record Options : Type := {
  RetryCount : Z;
  Timeout : Z;
  Logger_ : option Logger
}.

(** [http.Client], of which the client sets the timeout. *)
Record http_Client : Type := { http_Timeout : Z }.

Record Client : Type := {
  ApiKey : option string;
  BaseURL : option url.URL;
  Options_ : Options;
  client : http_Client
}.

(** A [ClientOption] is a function value that takes the pointer to the
    client: it may be nil, and a call of it changes the client and returns,
    or panics. *)
Definition ClientOption : Type := option (Client -> outcome Client).

Definition DefaultOptions : Options :=
  {| RetryCount := 3; Timeout := time.Second * 10;
     Logger_ := Some NewDefaultLogger |}.

(** One round of the loop over [opts] in [NewClient]: the call [opt(client)],
    then the timeout of the HTTP client follows a timeout that is set. *)
Definition apply_option (c : Client) (opt : ClientOption) : outcome Client :=
  f ← deref opt;
  c ← f c;
  Returns
    (if negb (Timeout (Options_ c) =? 0)
     then {| ApiKey := ApiKey c; BaseURL := BaseURL c; Options_ := Options_ c;
             client := {| http_Timeout := Timeout (Options_ c) |} |}
     else c).

(** The loop over [opts]. *)
Fixpoint apply_options (opts : list ClientOption) (c : Client)
  : outcome Client :=
  match opts with
  | [] => Returns c
  | opt :: opts' => c' ← apply_option c opt; apply_options opts' c'
  end.

Definition NewClient (baseURL : option url.URL) (apiKey : option string)
    (opts : list ClientOption) : outcome Client :=
  let c := {| ApiKey := apiKey; BaseURL := baseURL; Options_ := DefaultOptions;
              client := {| http_Timeout := 10 * time.Second |} |} in
  if match baseURL with
     | None => true
     | Some u => String.eqb (url.URL_String u) ""
     end
  then Panics (PanicError (errors_New "base url is required"))
  else apply_options opts c.

Definition SetBaseURL (baseURL : option url.URL) (c : Client) : Client :=
  {| ApiKey := ApiKey c; BaseURL := baseURL; Options_ := Options_ c;
     client := client c |}.

(** ** Request construction *)

Section RequestBuilder.
Context `{GoLib}.

(** [json.NewEncoder(bodyBuf).Encode(opt)]: the JSON text and a newline. *)
Definition json_Encode (opt : Payload) : result string :=
  s ← json_Marshal opt; Ok (s +:+ String "010" EmptyString).

Definition NewRequest (c : Client) (endpoint method : string)
    (opt : option Payload) : outcome (result http.Request) :=
  base ← deref (BaseURL c);
  Returns (
    u ← url.Parse (url.URL_String base +:+ endpoint);
    u ← match opt with
        | Some p =>
            if String.eqb method http.MethodGet
            then q ← query_Values p; Ok (url.set_RawQuery (url.Encode q) u)
            else Ok u
        | None => Ok u
        end;
    bodyBuf ← match opt with
              | Some p =>
                  if negb (String.eqb method http.MethodGet)
                  then b ← json_Encode p; Ok (Some b)
                  else Ok None
              | None => Ok None
              end;
    req ← http.NewRequest method (url.URL_String u) bodyBuf;
    let req := match ApiKey c with
               | Some key => http.add_header "X-Blnk-Key" key req
               | None => req
               end in
    Ok (http.add_header "Content-Type" "application/json" req)).

End RequestBuilder.

(** ** The transport and the observable effects of a call *)

(** What the transport hands back for one round trip. *)
Record Reply : Type := {
  reply_StatusCode : Z;
  reply_Status : string;
  reply_Body : string
}.

(** [http.Response]; [BodyId] names the body stream (the number of the round
    trip that produced it), [BodyData] is what can be read from it. *)
Record Response : Type := {
  StatusCode : Z;
  Status : string;
  BodyId : nat;
  BodyData : string
}.

Definition response_of (i : nat) (r : Reply) : Response :=
  {| StatusCode := reply_StatusCode r; Status := reply_Status r;
     BodyId := i; BodyData := reply_Body r |}.

(** [c.client.Do]: the answer to the [i]-th round trip of a call, as the pair
    [(resp, err)] that Go returns. *)
Definition Transport : Type :=
  nat -> http.Request -> option Reply * option error.

Inductive event : Type :=
| EvDo (req : http.Request)
| EvInfo (msg : string)
| EvError (msg : string)
| EvSleep (d : Z)
| EvClose (body : nat).

Definition is_Do (e : event) : bool :=
  match e with EvDo _ => true | _ => false end.
Definition is_Sleep (e : event) : bool :=
  match e with EvSleep _ => true | _ => false end.
Definition is_Close (body : nat) (e : event) : bool :=
  match e with EvClose b => Nat.eqb b body | _ => false end.

(** The number of requests sent, delays taken and releases of one body in a
    trace. *)
Definition attempts (t : list event) : nat := length (List.filter is_Do t).
Definition delays (t : list event) : nat := length (List.filter is_Sleep t).
Definition releases (body : nat) (t : list event) : nat :=
  length (List.filter (is_Close body) t).

(** The text of [err.Error()]. The wording for a rejected status is not
    fixed by the call layer. *)
Definition Error (e : error) : string :=
  match e with
  | errors_New text => text
  | lib_error _ text => text
  | status_error code payload =>
      "status " +:+ pretty code +:+ default "" (String.append ": " <$> payload)
  end.

(** ** The retry loop and the decoder *)

Section RetryExecutor.
Context `{GoLib}.

(** The state a call runs in: the round trips made so far, the effects in
    the order they happened and the value behind the caller's [resBody]. *)
Record World : Type := {
  calls : nat;
  trace : list event;
  target : Target
}.

(** A computation that reads and changes the world and returns or panics. *)
Record M (A : Type) : Type := { run : World -> outcome A * World }.
Arguments run {A} m w.

Definition M_ret {A} (a : A) : M A := {| run := fun w => (Returns a, w) |}.

Definition M_bind {A B} (k : A -> M B) (m : M A) : M B :=
  {| run := fun w =>
       match run m w with
       | (Returns a, w') => run (k a) w'
       | (Panics p, w') => (Panics p, w')
       end |}.

#[global] Instance M_mret : MRet M := @M_ret.
#[global] Instance M_mbind : MBind M := @M_bind.

Definition lift {A} (o : outcome A) : M A := {| run := fun w => (o, w) |}.

Definition emit (e : event) : M unit :=
  {| run := fun w =>
       (Returns tt,
        {| calls := calls w; trace := (trace w ++ [e])%list;
           target := target w |}) |}.

Definition read_target : M Target :=
  {| run := fun w => (Returns (target w), w) |}.

Definition write_target (v : Target) : M unit :=
  {| run := fun w =>
       (Returns tt, {| calls := calls w; trace := trace w; target := v |}) |}.

Variable transport : Transport.

(** [c.client.Do(req)] *)
Definition Do (req : http.Request) : M (option Response * option error) :=
  {| run := fun w =>
       let (reply, err) := transport (calls w) req in
       (Returns (response_of (calls w) <$> reply, err),
        {| calls := S (calls w); trace := (trace w ++ [EvDo req])%list;
           target := target w |}) |}.

(** [c.Options.Logger.Info(msg)] and [c.Options.Logger.Error(msg)]: the
    call on a nil logger panics; a logger that is set takes the line. *)
Definition Logger_Info (logger : option Logger) (msg : string) : M unit :=
  lift (deref logger);; emit (EvInfo msg).
Definition Logger_Error (logger : option Logger) (msg : string) : M unit :=
  lift (deref logger);; emit (EvError msg).
Definition time_Sleep (d : Z) : M unit := emit (EvSleep d).
Definition Body_Close (resp : Response) : M unit := emit (EvClose (BodyId resp)).

(** Modelled from the spec: [CheckResponse] is called by [DecodeResponse] but
    is not among the sources. Section 4.4: it "first checks the response
    status is in the success range (2xx); any other status yields a
    DecodeError carrying the status and, if parseable, the error payload
    from the response body". *)
Definition CheckResponse (resp : Response) : option error :=
  if (200 <=? StatusCode resp) && (StatusCode resp <? 300)
  then None
  else Some (status_error (StatusCode resp) (json_ErrorPayload (BodyData resp))).

Definition DecodeResponse (resp : Response) : M (option error) :=
  match CheckResponse resp with
  | Some err => mret (Some err)
  | None =>
      v ← read_target;
      let (v', err) := json_Decode (BodyData resp) v in
      write_target v';;
      match err with
      | Some err => mret (Some err)
      | None => mret None
      end
  end.

(** How the [for] loop of [CallWithRetry] is left: by a [return] inside the
    body, or by its condition with the last value of [resp]. *)
Inductive loop_exit : Type :=
| LoopReturn (v : option Response * option error)
| LoopEnd (resp : option Response).

Definition status_log (resp : Response) : string :=
  "Request failed with status code " +:+ pretty (StatusCode resp)
  +:+ " and Status " +:+ Status resp.

Section Call.
Variable c : Client.
Variables endpoint method : string.
Variable opt : option Payload.

(** The loop with [n] iterations left; [resp] is the variable declared
    before the loop. *)
Fixpoint retry_loop (n : nat) (resp : option Response) : M loop_exit :=
  match n with
  | O => mret (LoopEnd resp)
  | S n' =>
      r ← lift (NewRequest c endpoint method opt);
      match r with
      | Err err => mret (LoopReturn (None, Some err))
      | Ok req =>
          '(resp, err) ← Do req;
          match err with
          | Some err =>
              Logger_Info (Logger_ (Options_ c)) (Error err);;
              time_Sleep (time.Second * 2);;
              retry_loop n' resp
          | None =>
              r ← lift (deref resp);
              if 500 <=? StatusCode r
              then
                Logger_Error (Logger_ (Options_ c)) (status_log r);;
                time_Sleep (time.Second * 2);;
                retry_loop n' resp
              else
                err ← DecodeResponse r;
                match err with
                | Some err =>
                    Logger_Error (Logger_ (Options_ c)) (Error err);;
                    mret (LoopReturn (resp, Some err))
                | None => mret (LoopReturn (resp, None))
                end
          end
      end
  end.

(** After the loop, [defer resp.Body.Close()] reads [resp.Body] at once and
    closes the body when the function returns. *)
Definition CallWithRetry : M (option Response * option error) :=
  let retryCount := RetryCount (Options_ c) in
  x ← retry_loop (Z.to_nat retryCount) None;
  match x with
  | LoopReturn v => mret v
  | LoopEnd resp =>
      r ← lift (deref resp);
      Body_Close r;;
      mret (None, Some (errors_New "max retry count exceeded"))
  end.

End Call.

(** *** The shape of a run of transient failures *)

(** The line the loop logs for round trip [i] when it is transient. *)
Definition attempt_log (req : http.Request) (i : nat) : event :=
  match transport i req with
  | (_, Some err) => EvInfo (Error err)
  | (Some r, None) => EvError (status_log (response_of i r))
  | (None, None) => EvInfo ""
  end.

(** What one transient iteration leaves in the trace. *)
Definition attempt_events (req : http.Request) (i : nat) : list event :=
  [EvDo req; attempt_log req i; EvSleep (time.Second * 2)].

(** The trace of the [k] transient iterations that start at round trip
    [from]. *)
Definition transient_events (req : http.Request) (from k : nat) : list event :=
  flat_map (attempt_events req) (seq from k).

(** The variable [resp] after these iterations. *)
Definition resp_after (req : http.Request) (from k : nat)
    (resp : option Response) : option Response :=
  match k with
  | O => resp
  | S k' => response_of (from + k')%nat <$> fst (transport (from + k')%nat req)
  end.

(** The world after these iterations. *)
Definition after_transient (req : http.Request) (k : nat) (w : World) : World :=
  {| calls := (calls w + k)%nat;
     trace := (trace w ++ transient_events req (calls w) k)%list;
     target := target w |}.

End RetryExecutor.

Arguments run {_ A} m w.

(** ** A concrete setting for the examples *)

Module Sample.

(** A payload is a flat struct, given by its fields in declared order; the
    target holds the last body decoded into it. *)
Definition add_field (v : Values) (f : string * string) : Values :=
  http.Header_Add (fst f) (snd f) v.

Definition starts_with_brace (s : string) : bool :=
  match s with
  | String "{" _ => true
  | _ => false
  end.

Definition lib : GoLib := {|
  Payload := list (string * string);
  Target := string;
  query_Values := fun p => Ok (fold_left add_field p ∅);
  json_Marshal := fun p =>
    Ok ("{" +:+ String.concat "," ((fun f => fst f +:+ ":" +:+ snd f) <$> p) +:+ "}");
  json_Decode := fun body v =>
    if starts_with_brace body then (body, None)
    else (v, Some (lib_error "encoding/json" "invalid character"));
  json_ErrorPayload := fun body =>
    if String.eqb body "" then None else Some body;
  url_check := fun _ _ => None
|}.

Definition base : url.URL :=
  {| url.Head := "http://localhost:5001/"; url.ForceQuery := false;
     url.RawQuery := ""; url.Fragment := "" |}.

Definition WithRetryCount (n : Z) : ClientOption := Some (fun c => Returns
  {| ApiKey := ApiKey c; BaseURL := BaseURL c;
     Options_ := {| RetryCount := n; Timeout := Timeout (Options_ c);
                    Logger_ := Logger_ (Options_ c) |};
     client := client c |}).

(** The client [NewClient] returns for [base], a key and the given retry
    count. *)
Definition client_with (retries : Z) : Client :=
  match NewClient (Some base) (Some "secret") [WithRetryCount retries] with
  | Returns c => c
  | Panics _ =>
      {| ApiKey := None; BaseURL := None; Options_ := DefaultOptions;
         client := {| http_Timeout := 0 |} |}
  end.

Definition reply (code : Z) (status body : string) : Reply :=
  {| reply_StatusCode := code; reply_Status := status; reply_Body := body |}.

(** Every round trip fails in the transport. *)
Definition refusing : Transport := fun _ _ =>
  (None, Some (lib_error "net/http" "dial tcp: connection refused")).

(** Every round trip is answered with a server fault. *)
Definition unavailable : Transport := fun _ _ =>
  (Some (reply 503 "503 Service Unavailable" ""), None).

(** Every round trip is answered with a client fault. *)
Definition not_found : Transport := fun _ _ =>
  (Some (reply 404 "404 Not Found" "{}"), None).

End Sample.

Definition init_world `{GoLib} (v : Target) : World :=
  {| calls := 0; trace := []; target := v |}.

(** ** What the claims speak about *)

(** The base address is missing: nil or empty. *)
Definition base_missing (baseURL : option url.URL) : Prop :=
  match baseURL with
  | None => True
  | Some u => url.URL_String u = ""
  end.

Definition returns_normally {A} (o : outcome A) : Prop :=
  match o with
  | Returns _ => True
  | Panics _ => False
  end.

(** A round trip that the retry loop answers with a delay and another
    iteration: a transport error, or a response with status 500 or more. *)
Definition transient (o : option Reply * option error) : bool :=
  match o with
  | (_, Some _) => true
  | (Some r, None) => 500 <=? reply_StatusCode r
  | (None, None) => false
  end.

(** Every delay in the trace is followed by another request. *)
Fixpoint delay_only_before_attempt (t : list event) : bool :=
  match t with
  | [] => true
  | EvSleep _ :: t' => existsb is_Do t' && delay_only_before_attempt t'
  | _ :: t' => delay_only_before_attempt t'
  end.

(** The payload has a field that is serialised. *)
Definition has_field (q : Values) : Prop :=
  exists k v vs, q !! k = Some (v :: vs).

(** The requests [NewRequest] builds in the sample setting. *)
Definition built (o : outcome (result http.Request)) : http.Request :=
  match o with
  | Returns (Ok req) => req
  | _ => {| http.Method := ""; http.URL := Sample.base; http.Header_ := ∅;
            http.Body := None |}
  end.

Definition sample_fields : @Payload Sample.lib :=
  [("limit", "10"); ("currency", "US D")].

Definition sample_GET : http.Request :=
  built (@NewRequest Sample.lib (Sample.client_with 3) "ledgers" "GET"
           (Some sample_fields)).

Definition sample_POST : http.Request :=
  built (@NewRequest Sample.lib (Sample.client_with 3) "transactions" "POST"
           (Some sample_fields)).

Definition sample_bare : http.Request :=
  built (@NewRequest Sample.lib (Sample.client_with 3) "ledgers" "DELETE" None).

Definition sample_listing : http.Request :=
  built (@NewRequest Sample.lib (Sample.client_with 3) "ledgers?limit=1" "GET"
           None).

(** Two values of the caller's target. *)
Definition blank : @Target Sample.lib := EmptyString.
Definition kept : @Target Sample.lib := "kept".

(** ** Further measures and sample inputs *)

(** The time slept in a trace. *)
Fixpoint total_sleep (t : list event) : Z :=
  match t with
  | [] => 0
  | EvSleep d :: t' => d + total_sleep t'
  | _ :: t' => total_sleep t'
  end.

(** An option that sets the timeout of the options and nothing else. *)
Definition set_Timeout (d : Z) (c : Client) : Client :=
  {| ApiKey := ApiKey c; BaseURL := BaseURL c;
     Options_ := {| RetryCount := RetryCount (Options_ c); Timeout := d;
                    Logger_ := Logger_ (Options_ c) |};
     client := client c |}.

Definition sample_WithTimeout (d : Z) : ClientOption :=
  Some (fun c => Returns (set_Timeout d c)).

(** An option that sets the logger and nothing else. *)
Definition sample_WithLogger (logger : option Logger) : ClientOption :=
  Some (fun c => Returns
    {| ApiKey := ApiKey c; BaseURL := BaseURL c;
       Options_ := {| RetryCount := RetryCount (Options_ c);
                      Timeout := Timeout (Options_ c); Logger_ := logger |};
       client := client c |}).

(** An option that panics when it is called. *)
Definition sample_panicking : ClientOption :=
  Some (fun _ => Panics (PanicError (errors_New "option failed"))).

(** The client [NewClient] returns for the sample base address and an
    option that sets a nil logger. *)
Definition sample_mute_client : Client :=
  match NewClient (Some Sample.base) None [sample_WithLogger None] with
  | Returns c => c
  | Panics _ =>
      {| ApiKey := None; BaseURL := None; Options_ := DefaultOptions;
         client := {| http_Timeout := 0 |} |}
  end.

(** Two server faults, then a success. *)
Definition sample_recovering : Transport := fun i _ =>
  if (i <? 2)%nat
  then (Some (Sample.reply 503 "503 Service Unavailable" ""), None)
  else (Some (Sample.reply 200 "200 OK" "{}"), None).

(** A transport error, then a server fault on every later round trip. *)
Definition sample_degraded : Transport := fun i _ =>
  if (i <? 1)%nat
  then (None, Some (lib_error "net/http" "dial tcp: connection refused"))
  else (Some (Sample.reply 502 "502 Bad Gateway" ""), None).

Definition sample_empty_method : http.Request :=
  built (@NewRequest Sample.lib (Sample.client_with 3) "transactions"
           EmptyString (Some sample_fields)).

(** The timeout of the HTTP client follows the timeout of the options. *)
Definition timeout_in_step (c : Client) : Prop :=
  Timeout (Options_ c) <> 0 -> http_Timeout (client c) = Timeout (Options_ c).

(** The client [NewClient] returns for the sample base address, a key and
    no option. *)
Definition sample_default_client : Client :=
  {| ApiKey := Some "secret"; BaseURL := Some Sample.base;
     Options_ := DefaultOptions;
     client := {| http_Timeout := 10 * time.Second |} |}.

(** The client [NewClient] returns for the sample base address, a key, a
    retry count of five and a timeout of three seconds. *)
Definition sample_timed_client : Client :=
  {| ApiKey := Some "secret"; BaseURL := Some Sample.base;
     Options_ := {| RetryCount := 5; Timeout := 3 * time.Second;
                    Logger_ := Some NewDefaultLogger |};
     client := {| http_Timeout := 3 * time.Second |} |}.

(** * Properties *)

(** ** Byte sequences *)

Lemma append_cons (x : ascii) (a b : string) :
  String x a +:+ b = String x (a +:+ b).
Proof. reflexivity. Qed.

Lemma append_nil (b : string) : "" +:+ b = b.
Proof. reflexivity. Qed.

Section Bytes.
Variable c : ascii.

Lemma append_assoc (a b d : string) : (a +:+ b) +:+ d = a +:+ (b +:+ d).
Proof.
  induction a as [|x a IH]; rewrite ?append_cons, ?append_nil; simpl;
    [reflexivity | f_equal; exact IH].
Qed.

Lemma append_empty_r (a : string) : a +:+ "" = a.
Proof.
  induction a as [|x a IH]; rewrite ?append_cons, ?append_nil; simpl;
    [reflexivity | f_equal; exact IH].
Qed.

Lemma append_eq_empty (a b : string) : a +:+ b = "" -> a = "" /\ b = "".
Proof.
  destruct a; rewrite ?append_cons, ?append_nil; simpl;
    [auto | discriminate].
Qed.

Lemma contains_byte_app (a b : string) :
  contains_byte c (a +:+ b) = contains_byte c a || contains_byte c b.
Proof.
  induction a as [|x a IH]; rewrite ?append_cons, ?append_nil; simpl;
    [reflexivity |].
  rewrite IH. apply orb_assoc.
Qed.

Lemma count_byte_app (a b : string) :
  count_byte c (a +:+ b) = (count_byte c a + count_byte c b)%nat.
Proof.
  induction a as [|x a IH]; rewrite ?append_cons, ?append_nil; simpl;
    [reflexivity | rewrite IH; lia].
Qed.

Lemma count_byte_absent (s : string) :
  contains_byte c s = false -> count_byte c s = 0%nat.
Proof.
  induction s as [|x s IH]; simpl; [reflexivity |].
  intros [Hx Hs]%orb_false_iff. rewrite Hx. simpl. auto.
Qed.

Lemma count_byte_present (s : string) :
  contains_byte c s = true -> (1 <= count_byte c s)%nat.
Proof.
  induction s as [|x s IH]; simpl; [discriminate |].
  destruct (Ascii.eqb x c); simpl; [lia | auto].
Qed.

Lemma has_suffix_present (s : string) :
  has_suffix_byte c s = true -> contains_byte c s = true.
Proof.
  induction s as [|x s IH]; simpl; [discriminate |].
  destruct s as [|y s].
  - intros ->. reflexivity.
  - intros Hs. rewrite (IH Hs). apply orb_true_r.
Qed.

Lemma has_suffix_app (h q : string) :
  q <> "" -> has_suffix_byte c (h +:+ q) = has_suffix_byte c q.
Proof.
  intros Hq. induction h as [|x h IH]; [reflexivity |].
  rewrite append_cons. simpl. rewrite IH.
  destruct (h +:+ q) eqn:E; [| reflexivity].
  apply append_eq_empty in E. tauto.
Qed.

Lemma drop_last_snoc (h : string) (x : ascii) :
  drop_last (h +:+ String x "") = h.
Proof.
  induction h as [|y h IH]; [reflexivity |].
  rewrite append_cons. simpl. rewrite IH.
  destruct h; reflexivity.
Qed.

Lemma cut_absent (s : string) :
  contains_byte c s = false -> cut c s = (s, "").
Proof.
  induction s as [|x s IH]; simpl; [reflexivity |].
  intros [Hx Hs]%orb_false_iff. rewrite Hx, (IH Hs). reflexivity.
Qed.

Lemma cut_at (h t : string) :
  contains_byte c h = false -> cut c (h +:+ String c t) = (h, t).
Proof.
  induction h as [|x h IH]; rewrite ?append_cons, ?append_nil; simpl.
  - now rewrite Ascii.eqb_refl.
  - intros [Hx Hs]%orb_false_iff. rewrite Hx, (IH Hs). reflexivity.
Qed.

Lemma cut_before_clean (s : string) : contains_byte c (fst (cut c s)) = false.
Proof.
  induction s as [|x s IH]; simpl; [reflexivity |].
  destruct (Ascii.eqb x c) eqn:E; [reflexivity |].
  destruct (cut c s) as [b a]. simpl in *. now rewrite E, IH.
Qed.

Lemma cut_keeps_absent (d : ascii) (s : string) :
  contains_byte d s = false ->
  contains_byte d (fst (cut c s)) = false /\
  contains_byte d (snd (cut c s)) = false.
Proof.
  induction s as [|x s IH]; simpl; [auto |].
  intros [Hx Hs]%orb_false_iff.
  destruct (Ascii.eqb x c); [simpl; auto |].
  destruct (IH Hs) as [H1 H2]. destruct (cut c s) as [b a].
  simpl in *. now rewrite Hx, H1, H2.
Qed.

Lemma drop_last_cons (x y : ascii) (s : string) :
  drop_last (String x (String y s)) = String x (drop_last (String y s)).
Proof. reflexivity. Qed.

Lemma contains_byte_cons (x : ascii) (s : string) :
  contains_byte c (String x s) = Ascii.eqb x c || contains_byte c s.
Proof. reflexivity. Qed.

Lemma drop_last_keeps_absent (s : string) :
  contains_byte c s = false -> contains_byte c (drop_last s) = false.
Proof.
  induction s as [|x s IH]; [auto |].
  rewrite contains_byte_cons. intros [Hx Hs]%orb_false_iff.
  destruct s as [|y s]; [reflexivity |].
  rewrite drop_last_cons, contains_byte_cons, Hx, (IH Hs). reflexivity.
Qed.

Lemma drop_last_single (s : string) :
  has_suffix_byte c s = true -> count_byte c s = 1%nat ->
  contains_byte c (drop_last s) = false.
Proof.
  induction s as [|x s IH]; [discriminate |].
  destruct s as [|y s]; [reflexivity |].
  intros Hsuf Hcount.
  change (has_suffix_byte c (String y s) = true) in Hsuf.
  pose proof (count_byte_present _ (has_suffix_present _ Hsuf)) as Hin.
  change (((if Ascii.eqb x c then 1 else 0) + count_byte c (String y s))%nat
          = 1%nat) in Hcount.
  rewrite drop_last_cons, contains_byte_cons.
  destruct (Ascii.eqb x c) eqn:E; [lia |].
  simpl orb. apply IH; [assumption | lia].
Qed.

End Bytes.

(** ** Addresses: parsing what [URL_String] wrote *)

Section Addresses.
Context `{GoLib}.

Lemma cut_fragment_URL_String (u : url.URL) :
  contains_byte "#" (url.Head u) = false ->
  contains_byte "#" (url.RawQuery u) = false ->
  fst (cut "#" (url.URL_String u)) = url.before_fragment u.
Proof.
  intros Hh Hq.
  assert (Hclean : contains_byte "#" (url.before_fragment u) = false).
  { unfold url.before_fragment. rewrite contains_byte_app, Hh. simpl.
    destruct (_ || _); [| reflexivity].
    rewrite contains_byte_app, Hq. reflexivity. }
  unfold url.URL_String. fold (url.before_fragment u).
  rewrite <- append_assoc. fold (url.before_fragment u).
  destruct (negb _).
  - change ("#" +:+ url.Fragment u) with (String "#" (url.Fragment u)).
    now rewrite cut_at.
  - rewrite append_empty_r. now rewrite cut_absent.
Qed.

(** Splitting [before_fragment u] at the query gives back the query. *)
Lemma split_query_before_fragment (u : url.URL) :
  contains_byte "?" (url.Head u) = false ->
  (if has_suffix_byte "?" (url.before_fragment u)
      && Nat.eqb (count_byte "?" (url.before_fragment u)) 1
   then (drop_last (url.before_fragment u), true, "")
   else let (rest, query) := cut "?" (url.before_fragment u) in
        (rest, false, query))
  = (url.Head u,
     url.ForceQuery u && String.eqb (url.RawQuery u) "",
     url.RawQuery u).
Proof.
  intros Hh. unfold url.before_fragment.
  destruct (String.eqb (url.RawQuery u) "") eqn:Eq.
  - apply String.eqb_eq in Eq. rewrite Eq.
    destruct (url.ForceQuery u); simpl orb; cbv iota.
    + change ("?" +:+ "") with (String "?" "").
      rewrite has_suffix_app by discriminate.
      rewrite count_byte_app, (count_byte_absent _ _ Hh).
      simpl. now rewrite drop_last_snoc.
    + rewrite append_empty_r.
      destruct (has_suffix_byte "?" (url.Head u)) eqn:Es.
      { apply has_suffix_present in Es. congruence. }
      simpl. now rewrite cut_absent.
  - apply String.eqb_neq in Eq.
    rewrite orb_true_r. cbv iota.
    change ("?" +:+ url.RawQuery u) with (String "?" (url.RawQuery u)).
    rewrite andb_false_r.
    assert (Hcond : has_suffix_byte "?" (url.Head u +:+ String "?" (url.RawQuery u))
              && Nat.eqb (count_byte "?" (url.Head u +:+ String "?" (url.RawQuery u))) 1
              = false).
    { rewrite count_byte_app, (count_byte_absent _ _ Hh).
      rewrite has_suffix_app by discriminate.
      destruct (url.RawQuery u) as [|x q] eqn:Er; [congruence |].
      change (has_suffix_byte "?" (String "?" (String x q)))
        with (has_suffix_byte "?" (String x q)).
      destruct (has_suffix_byte "?" (String x q)) eqn:Es; [| reflexivity].
      apply has_suffix_present, count_byte_present in Es.
      change (count_byte "?" (String "?" (String x q)))
        with (S (count_byte "?" (String x q))).
      simpl andb. apply Nat.eqb_neq. simpl in Es |- *. lia. }
    rewrite Hcond. now rewrite cut_at.
Qed.

Lemma Parse_clean (s : string) (u : url.URL) :
  url.Parse s = Ok u ->
  contains_byte "?" (url.Head u) = false /\
  contains_byte "#" (url.Head u) = false /\
  contains_byte "#" (url.RawQuery u) = false.
Proof.
  unfold url.Parse.
  pose proof (cut_before_clean "#" s) as Hc.
  destruct (cut "#" s) as [u0 frag]. simpl in Hc.
  destruct (url.stringContainsCTLByte u0); [discriminate |].
  destruct (has_suffix_byte "?" u0 && Nat.eqb (count_byte "?" u0) 1) eqn:Ec.
  - apply andb_prop in Ec as [Es En]. apply Nat.eqb_eq in En.
    destruct (url_check _ _); [discriminate |].
    intros [= <-]. simpl.
    auto using drop_last_single, drop_last_keeps_absent.
  - pose proof (cut_before_clean "?" u0) as Hq.
    destruct (cut_keeps_absent "?" "#" u0 Hc) as [H1 H2].
    destruct (cut "?" u0) as [rest query]. simpl in *.
    destruct (url_check _ _); [discriminate |].
    intros [= <-]. simpl. auto.
Qed.

(** Writing an address and parsing it again keeps the query, when the head
    holds neither '?' nor '#' and the query no '#'. *)
Lemma Parse_URL_String (u u' : url.URL) :
  contains_byte "?" (url.Head u) = false ->
  contains_byte "#" (url.Head u) = false ->
  contains_byte "#" (url.RawQuery u) = false ->
  url.Parse (url.URL_String u) = Ok u' ->
  url.RawQuery u' = url.RawQuery u.
Proof.
  intros Hq Hh Hr. unfold url.Parse.
  pose proof (cut_fragment_URL_String u Hh Hr) as Hc.
  destruct (cut "#" (url.URL_String u)) as [u0 frag]. simpl in Hc. subst u0.
  destruct (url.stringContainsCTLByte _); [discriminate |].
  rewrite (split_query_before_fragment u Hq).
  destruct (url_check _ _); [discriminate |].
  now intros [= <-].
Qed.

(** An address without '?' parses to an empty query. *)
Lemma Parse_without_query (s : string) (u : url.URL) :
  contains_byte "?" s = false -> url.Parse s = Ok u -> url.RawQuery u = "".
Proof.
  intros Hs. unfold url.Parse.
  destruct (cut_keeps_absent "#" "?" s Hs) as [H1 _].
  destruct (cut "#" s) as [u0 frag]. simpl in H1.
  destruct (url.stringContainsCTLByte u0); [discriminate |].
  destruct (has_suffix_byte "?" u0) eqn:Es.
  { apply has_suffix_present in Es. congruence. }
  simpl. rewrite (cut_absent _ _ H1).
  destruct (url_check _ _); [discriminate |].
  now intros [= <-].
Qed.

End Addresses.

(** ** The encoded query *)

Section EncodedQuery.

Lemma escape_byte_clean (c : ascii) :
  contains_byte "#" (url.escape_byte c) = false.
Proof.
  destruct c as [[] [] [] [] [] [] [] []]; vm_compute; reflexivity.
Qed.

Lemma QueryEscape_clean (s : string) :
  contains_byte "#" (url.QueryEscape s) = false.
Proof.
  induction s as [|c s IH]; [reflexivity |].
  simpl. now rewrite contains_byte_app, escape_byte_clean, IH.
Qed.

Lemma write_pair_clean (k buf v : string) :
  contains_byte "#" buf = false ->
  contains_byte "#" (url.write_pair (url.QueryEscape k) buf v) = false.
Proof.
  intros Hb. unfold url.write_pair.
  rewrite !contains_byte_app, !QueryEscape_clean.
  destruct (String.eqb buf ""); rewrite ?contains_byte_app, Hb; reflexivity.
Qed.

Lemma write_pair_nonempty (ke buf v : string) : url.write_pair ke buf v <> "".
Proof.
  unfold url.write_pair. intros E.
  apply append_eq_empty in E as [_ E].
  apply append_eq_empty in E as [_ E]. discriminate.
Qed.

Lemma write_pairs_clean (k : string) (vs : list string) (buf : string) :
  contains_byte "#" buf = false ->
  contains_byte "#" (fold_left (url.write_pair (url.QueryEscape k)) vs buf)
  = false.
Proof.
  revert buf. induction vs as [|v vs IH]; intros buf Hb; [exact Hb |].
  simpl. apply IH. now apply write_pair_clean.
Qed.

Lemma write_pairs_nonempty (ke : string) (vs : list string) (buf : string) :
  buf <> "" \/ vs <> [] -> fold_left (url.write_pair ke) vs buf <> "".
Proof.
  revert buf. induction vs as [|v vs IH]; intros buf Hb; simpl.
  - destruct Hb; congruence.
  - apply IH. left. apply write_pair_nonempty.
Qed.

Lemma write_keys_clean (q : Values) (ks : list string) (buf : string) :
  contains_byte "#" buf = false ->
  contains_byte "#" (fold_left (url.write_key q) ks buf) = false.
Proof.
  revert buf. induction ks as [|k ks IH]; intros buf Hb; [exact Hb |].
  simpl. apply IH. now apply write_pairs_clean.
Qed.

Lemma write_keys_nonempty (q : Values) (ks : list string) (buf : string) :
  buf <> "" \/ (exists k v vs, k ∈ ks /\ q !! k = Some (v :: vs)) ->
  fold_left (url.write_key q) ks buf <> "".
Proof.
  revert buf. induction ks as [|k ks IH]; intros buf Hb; simpl.
  - destruct Hb as [Hb | (k & v & vs & Hin & _)]; [exact Hb |].
    now apply elem_of_nil in Hin.
  - apply IH. destruct Hb as [Hb | (k' & v & vs & Hin & Hk)].
    + left. apply write_pairs_nonempty. now left.
    + apply elem_of_cons in Hin as [-> | Hin].
      * left. apply write_pairs_nonempty. right. now rewrite Hk.
      * right. eauto.
Qed.

(** The text [Encode] writes never holds a '#'. *)
Lemma Encode_clean (q : Values) : contains_byte "#" (url.Encode q) = false.
Proof. unfold url.Encode. now apply write_keys_clean. Qed.

(** A key with a value leaves a non-empty text. *)
Lemma Encode_nonempty (q : Values) : has_field q -> url.Encode q <> "".
Proof.
  intros (k & v & vs & Hk). unfold url.Encode.
  apply write_keys_nonempty. right. exists k, v, vs. split; [| exact Hk].
  rewrite merge_sort_Permutation.
  apply list_elem_of_fmap. exists (k, v :: vs). split; [reflexivity |].
  now apply elem_of_map_to_list.
Qed.

End EncodedQuery.

(** ** Request construction *)

Section RequestFacts.
Context `{GoLib}.

Lemma http_NewRequest_inv (method urlStr : string) (body : option string)
    (r : http.Request) :
  http.NewRequest method urlStr body = Ok r ->
  url.Parse urlStr = Ok (http.URL r) /\
  http.Body r = body /\ http.Header_ r = ∅.
Proof.
  unfold http.NewRequest.
  destruct (negb _); [discriminate |].
  destruct (url.Parse urlStr) as [u | e]; [| discriminate].
  now intros [= <-].
Qed.

(** The steps a successful [NewRequest] went through. *)
Lemma NewRequest_inv (c : Client) (endpoint method : string)
    (opt : option Payload) (req : http.Request) :
  NewRequest c endpoint method opt = Returns (Ok req) ->
  exists base u u' bodyBuf r,
    BaseURL c = Some base /\
    url.Parse (url.URL_String base +:+ endpoint) = Ok u /\
    match opt with
    | Some p =>
        if String.eqb method http.MethodGet
        then q ← query_Values p; Ok (url.set_RawQuery (url.Encode q) u)
        else Ok u
    | None => Ok u
    end = Ok u' /\
    match opt with
    | Some p =>
        if negb (String.eqb method http.MethodGet)
        then b ← json_Encode p; Ok (Some b)
        else Ok None
    | None => Ok None
    end = Ok bodyBuf /\
    http.NewRequest method (url.URL_String u') bodyBuf = Ok r /\
    req = http.add_header "Content-Type" "application/json"
            match ApiKey c with
            | Some key => http.add_header "X-Blnk-Key" key r
            | None => r
            end.
Proof.
  unfold NewRequest. destruct (BaseURL c) as [base |]; [| discriminate].
  simpl. intros [= Hreq]. revert Hreq.
  destruct (url.Parse (url.URL_String base +:+ endpoint)) as [u | e] eqn:Hu;
    [| discriminate].
  simpl.
  match goal with |- mbind _ ?m = _ -> _ =>
    destruct m as [u' | e] eqn:Hu' end; [| discriminate].
  simpl.
  match goal with |- mbind _ ?m = _ -> _ =>
    destruct m as [bodyBuf | e] eqn:Hb end; [| discriminate].
  simpl.
  destruct (http.NewRequest method (url.URL_String u') bodyBuf) as [r | e] eqn:Hr;
    [| discriminate].
  simpl. intros [= <-].
  exists base, u, u', bodyBuf, r. auto 10.
Qed.

End RequestFacts.

(** ** The request builder *)

Section RequestBuilderClaims.
Context `{GoLib}.

(** What the finished request keeps of the request [r] that
    [http.NewRequest] returned. *)
Lemma finished_request (key : option string) (r : http.Request) :
  let req := http.add_header "Content-Type" "application/json"
               match key with
               | Some k => http.add_header "X-Blnk-Key" k r
               | None => r
               end in
  http.URL req = http.URL r /\ http.Body req = http.Body r.
Proof. destruct key; simpl; auto. Qed.

(** C6. For every descriptor with method GET and a non-nil payload, the
    request built by [NewRequest] carries the payload's fields as the query
    of its address (the encoding of [query.Values] of the payload) and has
    no body; the query is not empty when the payload has a field that is
    serialised. *)
Theorem NewRequest_GET_payload_in_query (c : Client) (endpoint : string)
    (p : Payload) (req : http.Request) :
  NewRequest c endpoint "GET" (Some p) = Returns (Ok req) ->
  exists q : Values,
    query_Values p = Ok q /\
    url.RawQuery (http.URL req) = url.Encode q /\
    http.Body req = None /\
    (has_field q -> url.RawQuery (http.URL req) <> "").
Proof.
  intros (base & u & u' & bodyBuf & r & _ & Hu & Hu' & Hb & Hr & ->)%NewRequest_inv.
  change (String.eqb "GET" http.MethodGet) with true in Hu', Hb.
  simpl in Hb. injection Hb as <-.
  destruct (query_Values p) as [q | e]; [| discriminate].
  simpl in Hu'. injection Hu' as <-.
  exists q. split; [reflexivity |].
  apply http_NewRequest_inv in Hr as (Hparse & Hbody & _).
  destruct (finished_request (ApiKey c) r) as [-> ->].
  destruct (Parse_clean _ _ Hu) as (Hq & Hh & _).
  assert (Hquery : url.RawQuery (http.URL r) = url.Encode q).
  { apply (Parse_URL_String (url.set_RawQuery (url.Encode q) u) _ Hq Hh
             (Encode_clean q) Hparse). }
  rewrite Hquery. repeat split; [assumption |].
  apply Encode_nonempty.
Qed.

(** C7. For every descriptor with a method other than GET and a non-nil
    payload, the request built by [NewRequest] carries the JSON text of the
    payload as its body, and its query is the one the address text (base
    address and endpoint) already had: no query parameter is added. *)
Theorem NewRequest_other_method_payload_in_body (c : Client)
    (endpoint method : string) (p : Payload) (req : http.Request) :
  method <> "GET" ->
  NewRequest c endpoint method (Some p) = Returns (Ok req) ->
  exists (json : string) (base u : url.URL),
    json_Marshal p = Ok json /\
    http.Body req = Some (json +:+ String "010" "") /\
    BaseURL c = Some base /\
    url.Parse (url.URL_String base +:+ endpoint) = Ok u /\
    url.RawQuery (http.URL req) = url.RawQuery u.
Proof.
  intros Hm (base & u & u' & bodyBuf & r & Hbase & Hu & Hu' & Hb & Hr & ->)%NewRequest_inv.
  apply String.eqb_neq in Hm. unfold http.MethodGet in *.
  rewrite Hm in Hu', Hb. injection Hu' as <-. simpl in Hb.
  unfold json_Encode in Hb.
  destruct (json_Marshal p) as [json | e]; [| discriminate].
  simpl in Hb. injection Hb as <-.
  apply http_NewRequest_inv in Hr as (Hparse & Hbody & _).
  destruct (finished_request (ApiKey c) r) as [-> ->].
  destruct (Parse_clean _ _ Hu) as (Hq & Hh & Hfr).
  exists json, base, u. repeat split; try assumption.
  apply (Parse_URL_String _ _ Hq Hh Hfr Hparse).
Qed.

(** C8. Every request built by [NewRequest] carries the header
    Content-Type: application/json, and carries the header X-Blnk-Key, set
    to the credential, exactly when the client has a credential. *)
Theorem NewRequest_headers (c : Client) (endpoint method : string)
    (opt : option Payload) (req : http.Request) :
  NewRequest c endpoint method opt = Returns (Ok req) ->
  http.Header_ req !! "Content-Type" = Some ["application/json"] /\
  http.Header_ req !! "X-Blnk-Key" = (fun key => [key]) <$> ApiKey c.
Proof.
  intros (base & u & u' & bodyBuf & r & _ & _ & _ & _ & Hr & ->)%NewRequest_inv.
  apply http_NewRequest_inv in Hr as (_ & _ & Hh).
  destruct (ApiKey c) as [key |]; simpl; unfold http.Header_Add; rewrite Hh;
    split.
  - rewrite lookup_insert_eq, lookup_insert_ne by discriminate.
    now rewrite lookup_empty.
  - rewrite lookup_insert_ne by discriminate.
    now rewrite lookup_insert_eq, lookup_empty.
  - now rewrite lookup_insert_eq, lookup_empty.
  - rewrite lookup_insert_ne by discriminate. apply lookup_empty.
Qed.

(** C10, as the code has it. For every method, when the payload is nil the
    request built by [NewRequest] has no body, and its query is the one the
    address text (base address and endpoint) already had; it is empty when
    that text holds no '?'. *)
Theorem NewRequest_nil_payload (c : Client) (endpoint method : string)
    (req : http.Request) :
  NewRequest c endpoint method None = Returns (Ok req) ->
  http.Body req = None /\
  exists base u : url.URL,
    BaseURL c = Some base /\
    url.Parse (url.URL_String base +:+ endpoint) = Ok u /\
    url.RawQuery (http.URL req) = url.RawQuery u /\
    (contains_byte "?" (url.URL_String base +:+ endpoint) = false ->
     url.RawQuery (http.URL req) = "").
Proof.
  intros (base & u & u' & bodyBuf & r & Hbase & Hu & Hu' & Hb & Hr & ->)%NewRequest_inv.
  injection Hu' as <-. injection Hb as <-.
  apply http_NewRequest_inv in Hr as (Hparse & Hbody & _).
  destruct (finished_request (ApiKey c) r) as [-> ->].
  destruct (Parse_clean _ _ Hu) as (Hq & Hh & Hfr).
  pose proof (Parse_URL_String _ _ Hq Hh Hfr Hparse) as Hquery.
  split; [assumption |].
  exists base, u. repeat split; try assumption.
  intros Hno. rewrite Hquery. now apply (Parse_without_query _ _ Hno).
Qed.

End RequestBuilderClaims.

(** ** The retry loop *)

Section RetryFacts.
Context `{GoLib}.
Variable transport : Transport.
Variable c : Client.
Variables endpoint method : string.
Variable opt : option Payload.
Variable req : http.Request.
Hypothesis Hreq : NewRequest c endpoint method opt = Returns (Ok req).

#[local] Abbreviation loop := (retry_loop transport c endpoint method opt).

Lemma run_bind {A B} (m : M A) (k : A -> M B) (w : World) :
  run (m ≫= k) w =
  match run m w with
  | (Returns a, w') => run (k a) w'
  | (Panics p, w') => (Panics p, w')
  end.
Proof. reflexivity. Qed.

Lemma run_Logger_Info (logger : option Logger) (msg : string) (w : World) :
  run (Logger_Info logger msg) w =
  match logger with
  | Some _ =>
      (Returns tt, {| calls := calls w; trace := (trace w ++ [EvInfo msg])%list;
                      target := target w |})
  | None => (Panics NilDereference, w)
  end.
Proof. now destruct logger. Qed.

Lemma run_Logger_Error (logger : option Logger) (msg : string) (w : World) :
  run (Logger_Error logger msg) w =
  match logger with
  | Some _ =>
      (Returns tt, {| calls := calls w; trace := (trace w ++ [EvError msg])%list;
                      target := target w |})
  | None => (Panics NilDereference, w)
  end.
Proof. now destruct logger. Qed.

(** One transient iteration, on a client whose logger is not nil. *)
Lemma transient_step (Hlog : Logger_ (Options_ c) <> None)
    (n : nat) (resp : option Response) (w : World) :
  transient (transport (calls w) req) = true ->
  run (loop (S n) resp) w =
  run (loop n (response_of (calls w) <$> fst (transport (calls w) req)))
      {| calls := S (calls w);
         trace := (trace w ++ attempt_events transport req (calls w))%list;
         target := target w |}.
Proof.
  intros Ht. cbn [retry_loop]. rewrite run_bind, Hreq. cbn [lift run].
  destruct (Logger_ (Options_ c)) as [logger |]; [| now elim Hlog].
  rewrite run_bind. unfold Do at 1. cbn [run].
  unfold attempt_events, attempt_log.
  destruct (transport (calls w) req) as [reply [err |]] eqn:Et.
  - rewrite !run_bind. cbn. rewrite <- !app_assoc. now destruct reply.
  - destruct reply as [r |]; [| discriminate].
    simpl in Ht. rewrite run_bind. cbn [fmap option_fmap option_map lift deref run].
    change (StatusCode (response_of (calls w) r)) with (reply_StatusCode r).
    rewrite Ht. rewrite !run_bind. cbn. now rewrite <- !app_assoc.
Qed.

(** A transient round trip on a client whose logger is nil: the request is
    sent and the call of the logger panics. *)
Lemma mute_transient_step (n : nat) (resp : option Response) (w : World) :
  Logger_ (Options_ c) = None ->
  transient (transport (calls w) req) = true ->
  run (loop (S n) resp) w =
  (Panics NilDereference,
   {| calls := S (calls w); trace := (trace w ++ [EvDo req])%list;
      target := target w |}).
Proof.
  intros Hmute Ht. cbn [retry_loop]. rewrite run_bind, Hreq. cbn [lift run].
  rewrite run_bind. unfold Do at 1. cbn [run].
  destruct (transport (calls w) req) as [reply [err |]] eqn:Et.
  - rewrite run_bind, run_Logger_Info, Hmute. reflexivity.
  - destruct reply as [r |]; [| discriminate].
    simpl in Ht. rewrite run_bind.
    cbn [fmap option_fmap option_map lift deref run].
    change (StatusCode (response_of (calls w) r)) with (reply_StatusCode r).
    rewrite Ht. rewrite run_bind, run_Logger_Error, Hmute. reflexivity.
Qed.

Lemma after_transient_0 (w : World) : after_transient transport req 0 w = w.
Proof.
  destruct w as [n t v]. unfold after_transient, transient_events. simpl.
  now rewrite Nat.add_0_r, app_nil_r.
Qed.

Lemma transient_events_S (from k : nat) :
  transient_events transport req from (S k) =
  (attempt_events transport req from
   ++ transient_events transport req (S from) k)%list.
Proof. reflexivity. Qed.

Lemma transient_events_snoc (from k : nat) :
  transient_events transport req from (S k) =
  (transient_events transport req from k
   ++ attempt_events transport req (from + k))%list.
Proof.
  unfold transient_events. rewrite seq_S, flat_map_app. simpl.
  rewrite ?app_nil_r. reflexivity.
Qed.

(** [k] transient iterations in a row. *)
Lemma transient_run (Hlog : Logger_ (Options_ c) <> None)
    (k n : nat) (resp : option Response) (w : World) :
  (forall i, (calls w <= i < calls w + k)%nat ->
             transient (transport i req) = true) ->
  run (loop (k + n) resp) w =
  run (loop n (resp_after transport req (calls w) k resp))
      (after_transient transport req k w).
Proof.
  revert resp w. induction k as [|k IH]; intros resp w Ht.
  - now rewrite after_transient_0.
  - change (S k + n)%nat with (S (k + n)).
    rewrite (transient_step Hlog) by (apply Ht; lia).
    rewrite IH by (intros i Hi; apply Ht; simpl in Hi; lia).
    f_equal.
    + f_equal. destruct k as [|k]; simpl.
      * now rewrite Nat.add_0_r.
      * now rewrite Nat.add_succ_r.
    + unfold after_transient. cbn [calls trace target].
      rewrite transient_events_S, <- app_assoc. f_equal. lia.
Qed.

Lemma attempts_app (a b : list event) :
  attempts (a ++ b) = (attempts a + attempts b)%nat.
Proof. unfold attempts. now rewrite List.filter_app, length_app. Qed.

Lemma delays_app (a b : list event) :
  delays (a ++ b) = (delays a + delays b)%nat.
Proof. unfold delays. now rewrite List.filter_app, length_app. Qed.

Lemma releases_app (body : nat) (a b : list event) :
  releases body (a ++ b) = (releases body a + releases body b)%nat.
Proof. unfold releases. now rewrite List.filter_app, length_app. Qed.

Lemma attempt_log_quiet (i : nat) :
  is_Do (attempt_log transport req i) = false /\
  is_Sleep (attempt_log transport req i) = false /\
  forall body, is_Close body (attempt_log transport req i) = false.
Proof.
  unfold attempt_log.
  destruct (transport i req) as [[r |] [e |]]; simpl; auto.
Qed.

(** A run of [k] transient iterations sends [k] requests, waits [k] times
    and releases nothing. *)
Lemma transient_events_counts (from k : nat) :
  attempts (transient_events transport req from k) = k /\
  delays (transient_events transport req from k) = k /\
  forall body, releases body (transient_events transport req from k) = 0%nat.
Proof.
  revert from. induction k as [|k IH]; intros from; [now auto |].
  rewrite transient_events_S.
  destruct (IH (S from)) as (Ha & Hd & Hr).
  destruct (attempt_log_quiet from) as (La & Ld & Lr).
  rewrite attempts_app, delays_app, Ha, Hd.
  unfold attempts, delays, releases, attempt_events in *.
  repeat split.
  - simpl. now rewrite La.
  - simpl. now rewrite Ld.
  - intros body. rewrite List.filter_app, length_app, Hr. simpl.
    now rewrite Lr.
Qed.

Lemma total_sleep_app (a b : list event) :
  total_sleep (a ++ b) = total_sleep a + total_sleep b.
Proof.
  induction a as [|e a IH]; [reflexivity |].
  destruct e; simpl; rewrite IH; lia.
Qed.

(** A run of [k] transient iterations sleeps two seconds [k] times. *)
Lemma total_sleep_transient_events (from k : nat) :
  total_sleep (transient_events transport req from k)
  = time.Second * 2 * Z.of_nat k.
Proof.
  revert from. induction k as [|k IH]; intros from; [reflexivity |].
  rewrite transient_events_S, total_sleep_app, IH.
  unfold attempt_events, attempt_log.
  destruct (transport from req) as [[r |] [e |]]; simpl; lia.
Qed.

Lemma DecodeResponse_run (resp : Response) (w : World) :
  run (DecodeResponse resp) w =
  match CheckResponse resp with
  | Some err => (Returns (Some err), w)
  | None =>
      (Returns (snd (json_Decode (BodyData resp) (target w))),
       {| calls := calls w; trace := trace w;
          target := fst (json_Decode (BodyData resp) (target w)) |})
  end.
Proof.
  unfold DecodeResponse. destruct (CheckResponse resp); [reflexivity |].
  rewrite run_bind. cbn [read_target run].
  destruct (json_Decode (BodyData resp) (target w)) as [v' [err |]];
    reflexivity.
Qed.

(** An iteration whose response has a status below 500: the response is
    decoded and the loop is left by [return], or by the panic of a nil
    logger that is asked to log the error. *)
Lemma decoding_step (n : nat) (resp : option Response) (w : World) (r : Reply) :
  transport (calls w) req = (Some r, None) ->
  reply_StatusCode r < 500 ->
  let got := response_of (calls w) r in
  let sent := {| calls := S (calls w); trace := (trace w ++ [EvDo req])%list;
                 target := target w |} in
  run (loop (S n) resp) w =
  match run (DecodeResponse got) sent with
  | (Returns (Some err), w') =>
      match Logger_ (Options_ c) with
      | Some _ =>
          (Returns (LoopReturn (Some got, Some err)),
           {| calls := calls w';
              trace := (trace w' ++ [EvError (Error err)])%list;
              target := target w' |})
      | None => (Panics NilDereference, w')
      end
  | (Returns None, w') => (Returns (LoopReturn (Some got, None)), w')
  | (Panics p, w') => (Panics p, w')
  end.
Proof.
  intros Et Hs got sent. cbn [retry_loop]. rewrite run_bind, Hreq.
  cbn [lift run]. rewrite run_bind. unfold Do at 1. cbn [run]. rewrite Et.
  rewrite run_bind. cbn [fmap option_fmap option_map lift deref run].
  change (StatusCode (response_of (calls w) r)) with (reply_StatusCode r).
  destruct (Z.leb_spec 500 (reply_StatusCode r)) as [Hge |_]; [lia |].
  rewrite run_bind. fold got sent.
  destruct (run (DecodeResponse got) sent) as [[[err |] | p] w'];
    [destruct (Logger_ (Options_ c)) | |]; reflexivity.
Qed.

(** The call when every one of the [retryCount] round trips is transient:
    the loop ends, and the deferred release reads the last [resp]. *)
Lemma CallWithRetry_all_transient (Hlog : Logger_ (Options_ c) <> None)
    (w : World) :
  let n := Z.to_nat (RetryCount (Options_ c)) in
  (forall i, (calls w <= i < calls w + n)%nat ->
             transient (transport i req) = true) ->
  run (CallWithRetry transport c endpoint method opt) w =
  match resp_after transport req (calls w) n None with
  | Some last =>
      (Returns (None, Some (errors_New "max retry count exceeded")),
       {| calls := (calls w + n)%nat;
          trace := (trace w ++ transient_events transport req (calls w) n
                    ++ [EvClose (BodyId last)])%list;
          target := target w |})
  | None => (Panics NilDereference, after_transient transport req n w)
  end.
Proof.
  intros n Ht. unfold CallWithRetry. fold n. rewrite run_bind.
  rewrite <- (Nat.add_0_r n) at 1. rewrite (transient_run Hlog n 0 None w Ht).
  cbn [retry_loop mret M_mret M_ret run].
  destruct (resp_after transport req (calls w) n None) as [last |];
    [| reflexivity].
  rewrite run_bind. cbn. now rewrite <- app_assoc.
Qed.

(** The call on a client whose logger is nil when the first round trip is
    transient: the request is sent and the call of the logger panics. With
    no iteration at all the deferred release panics on the nil [resp]. *)
Lemma CallWithRetry_mute_transient (w : World) :
  Logger_ (Options_ c) = None ->
  (0 < Z.to_nat (RetryCount (Options_ c)))%nat ->
  transient (transport (calls w) req) = true ->
  run (CallWithRetry transport c endpoint method opt) w =
  (Panics NilDereference,
   {| calls := S (calls w); trace := (trace w ++ [EvDo req])%list;
      target := target w |}).
Proof.
  intros Hmute Hn Ht. unfold CallWithRetry. rewrite run_bind.
  destruct (Z.to_nat (RetryCount (Options_ c))) as [|n]; [lia |].
  now rewrite (mute_transient_step n None w Hmute Ht).
Qed.

Lemma CallWithRetry_no_iteration (w : World) :
  Z.to_nat (RetryCount (Options_ c)) = 0%nat ->
  run (CallWithRetry transport c endpoint method opt) w
  = (Panics NilDereference, w).
Proof. intros Hn. unfold CallWithRetry. rewrite run_bind, Hn. reflexivity. Qed.

(** *** The retry count bounds every call *)

Lemma DecodeResponse_trace (resp : Response) (w : World) :
  trace (snd (run (DecodeResponse resp) w)) = trace w.
Proof.
  rewrite DecodeResponse_run. now destruct (CheckResponse resp).
Qed.

End RetryFacts.

Section RetryBound.
Context `{GoLib}.
Variable transport : Transport.
Variable c : Client.
Variables endpoint method : string.
Variable opt : option Payload.

(** Whatever the transport answers and however the loop is left, [n]
    iterations send at most [n] requests. *)
Lemma retry_loop_bounded (n : nat) (resp : option Response) (w : World) :
  (attempts (trace (snd (run (retry_loop transport c endpoint method opt n resp)
                           w)))
   <= attempts (trace w) + n)%nat.
Proof.
  revert resp w. induction n as [|n IH]; intros resp w.
  - simpl. lia.
  - cbn [retry_loop]. rewrite run_bind. cbn [lift run].
    destruct (NewRequest c endpoint method opt) as [[req | e] | p];
      [| simpl; lia | simpl; lia].
    rewrite run_bind. unfold Do at 1. cbn [run].
    destruct (transport (calls w) req) as [reply [err |]].
    + destruct (Logger_ (Options_ c)) as [logger |];
        repeat (rewrite run_bind; rewrite ?run_Logger_Info;
                cbn [time_Sleep emit run calls trace target snd]).
      * match goal with |- context [run (retry_loop _ _ _ _ _ n ?r) ?w1] =>
          specialize (IH r w1); cbn [trace] in IH end.
        rewrite !attempts_app in IH. unfold attempts at 3 4 5 in IH.
        simpl in IH. lia.
      * rewrite attempts_app. unfold attempts at 2. simpl. lia.
    + rewrite run_bind.
      destruct reply as [r |];
        cbn [fmap option_fmap option_map lift deref run].
      2:{ cbn [snd trace]. rewrite attempts_app. unfold attempts at 2.
          simpl. lia. }
      destruct (500 <=? StatusCode (response_of (calls w) r)).
      * destruct (Logger_ (Options_ c)) as [logger |];
          repeat (rewrite run_bind; rewrite ?run_Logger_Error;
                  cbn [time_Sleep emit run calls trace target snd]).
        -- match goal with |- context [run (retry_loop _ _ _ _ _ n ?r) ?w1] =>
             specialize (IH r w1); cbn [trace] in IH end.
           rewrite !attempts_app in IH. unfold attempts at 3 4 5 in IH.
           simpl in IH. lia.
        -- rewrite attempts_app. unfold attempts at 2. simpl. lia.
      * rewrite run_bind.
        match goal with |- context [run (DecodeResponse ?r) ?w1] =>
          pose proof (DecodeResponse_trace r w1) as Ht;
          destruct (run (DecodeResponse r) w1) as [[[err |] | p] w'] end;
          cbn [snd trace] in Ht; rewrite ?run_bind;
          try destruct (Logger_ (Options_ c)) as [logger |];
          rewrite ?run_bind, ?run_Logger_Error;
          cbn [emit run mret M_mret M_ret snd trace];
          rewrite ?attempts_app, Ht, ?attempts_app; unfold attempts; simpl;
          lia.
Qed.

(** X1. Whatever the transport answers and however the call ends, a call
    sends at most [retryCount] requests (none when the retry count is zero
    or negative). *)
Lemma CallWithRetry_attempts_bounded (v : Target) :
  (attempts (trace (snd (run (CallWithRetry transport c endpoint method opt)
                           (init_world v))))
   <= Z.to_nat (RetryCount (Options_ c)))%nat.
Proof.
  unfold CallWithRetry. rewrite run_bind.
  pose proof (retry_loop_bounded (Z.to_nat (RetryCount (Options_ c))) None
                (init_world v)) as Hb.
  destruct (run (retry_loop transport c endpoint method opt _ None)
              (init_world v)) as [[[ret | [last |]] | p] w'];
    cbn [snd] in Hb; cbn; unfold attempts in *; simpl in Hb;
    rewrite ?List.filter_app, ?length_app; simpl; lia.
Qed.

End RetryBound.

(** ** The retry executor and the decoder *)

Lemma delay_before_nothing (pre post : list event) (d : Z) :
  existsb is_Do post = false ->
  delay_only_before_attempt (pre ++ EvSleep d :: post) = false.
Proof.
  intros Hpost. induction pre as [|e pre IH]; simpl.
  - now rewrite Hpost.
  - destruct e; try exact IH. rewrite IH. apply andb_false_r.
Qed.

Section RetryExecutorClaims.
Context `{GoLib}.
Variable transport : Transport.
Variable c : Client.
Variables endpoint method : string.
Variable opt : option Payload.
Variable req : http.Request.

(** C4, as the code has it. On a client whose logger is not nil, when a
    response arrives whose status is below 500 and which is rejected by the
    decoder (its status is not a success status, e.g. 4xx, or its body
    cannot be decoded), [CallWithRetry] returns at once with that response
    and the error: after [k] transient failures the call has made [k + 1]
    attempts, the last event is the error log, and no delay and no further
    attempt follow. With [k = 0]: a 4xx response on the first attempt gives
    exactly one attempt. *)
Theorem CallWithRetry_permanent_failure_not_retried
    (v : Target) (k : nat) (r : Reply) :
  NewRequest c endpoint method opt = Returns (Ok req) ->
  Logger_ (Options_ c) <> None ->
  (k < Z.to_nat (RetryCount (Options_ c)))%nat ->
  (forall i, (i < k)%nat -> transient (transport i req) = true) ->
  transport k req = (Some r, None) ->
  reply_StatusCode r < 500 ->
  ~ (200 <= reply_StatusCode r < 300) \/
    snd (json_Decode (reply_Body r) v) <> None ->
  exists (err : error) (w' : World),
    run (CallWithRetry transport c endpoint method opt) (init_world v)
    = (Returns (Some (response_of k r), Some err), w') /\
    trace w' = (transient_events transport req 0 k
                ++ [EvDo req; EvError (Error err)])%list /\
    attempts (trace w') = S k.
Proof.
  intros Hreq Hlog Hk Hpre Hr Hlow Hbad.
  assert (Hcount : forall err,
            attempts (transient_events transport req 0 k
                      ++ [EvDo req; EvError (Error err)]) = S k).
  { intros err. rewrite attempts_app.
    destruct (transient_events_counts transport req 0 k) as (-> & _).
    unfold attempts. simpl. lia. }
  unfold CallWithRetry. rewrite run_bind.
  replace (Z.to_nat (RetryCount (Options_ c)))
    with (k + S (Z.to_nat (RetryCount (Options_ c)) - S k))%nat by lia.
  rewrite (transient_run transport c endpoint method opt req Hreq Hlog)
    by (intros i Hi; apply Hpre; simpl in Hi; lia).
  rewrite (decoding_step transport c endpoint method opt req Hreq _ _ _ r)
    by assumption.
  destruct (Logger_ (Options_ c)) as [logger |]; [| now elim Hlog].
  cbn [after_transient init_world calls trace target Nat.add app].
  rewrite DecodeResponse_run. unfold CheckResponse.
  change (StatusCode (response_of k r)) with (reply_StatusCode r).
  change (BodyData (response_of k r)) with (reply_Body r).
  destruct ((200 <=? reply_StatusCode r) && (reply_StatusCode r <? 300)) eqn:E.
  - destruct Hbad as [Hbad | Hbad]; [exfalso; apply Hbad; lia |].
    cbn [target].
    destruct (json_Decode (reply_Body r) v) as [v' [err |]];
      [| now elim Hbad].
    eexists err, _. split; [reflexivity |].
    cbn [trace snd]. rewrite <- app_assoc.
    split; [reflexivity | apply Hcount].
  - eexists _, _. split; [reflexivity |].
    cbn [trace]. rewrite <- app_assoc.
    split; [reflexivity | apply Hcount].
Qed.

(** C5, as the code has it. On a client whose logger is not nil, when
    every one of the [retryCount] attempts fails transiently, the fixed
    delay is applied after each of them, the final one included: there are
    as many delays as attempts, each delay lasts two seconds, and the last
    delay is followed by no attempt. *)
Theorem CallWithRetry_delay_after_every_transient_failure (v : Target) :
  NewRequest c endpoint method opt = Returns (Ok req) ->
  Logger_ (Options_ c) <> None ->
  (forall i, (i < Z.to_nat (RetryCount (Options_ c)))%nat ->
             transient (transport i req) = true) ->
  let w' := snd (run (CallWithRetry transport c endpoint method opt)
                     (init_world v)) in
  attempts (trace w') = Z.to_nat (RetryCount (Options_ c)) /\
  delays (trace w') = Z.to_nat (RetryCount (Options_ c)) /\
  total_sleep (trace w')
  = time.Second * 2 * Z.of_nat (Z.to_nat (RetryCount (Options_ c))) /\
  ((0 < Z.to_nat (RetryCount (Options_ c)))%nat ->
   delay_only_before_attempt (trace w') = false).
Proof.
  intros Hreq Hlog Ht.
  rewrite (CallWithRetry_all_transient transport c endpoint method opt req Hreq
             Hlog)
    by (intros i Hi; apply Ht; simpl in Hi; lia).
  cbn [init_world calls trace]. set (n := Z.to_nat (RetryCount (Options_ c))).
  destruct (transient_events_counts transport req 0 n) as (Ha & Hd & _).
  pose proof (total_sleep_transient_events transport req 0 n) as Hs.
  assert (Hlast : forall tail, existsb is_Do tail = false -> (0 < n)%nat ->
            delay_only_before_attempt
              (transient_events transport req 0 n ++ tail) = false).
  { intros tail Htail Hn. destruct n as [|m]; [lia |].
    rewrite transient_events_snoc. unfold attempt_events.
    rewrite <- app_assoc.
    change ([EvDo req; attempt_log transport req (0 + m);
             EvSleep (time.Second * 2)] ++ tail)%list
      with ([EvDo req; attempt_log transport req (0 + m)]
            ++ EvSleep (time.Second * 2) :: tail)%list.
    rewrite app_assoc. now apply delay_before_nothing. }
  destruct (resp_after transport req 0 n None) as [last |];
    cbn [snd trace after_transient init_world calls app].
  - rewrite attempts_app, delays_app, total_sleep_app, Ha, Hd, Hs.
    unfold attempts, delays. simpl.
    repeat split; try lia. now apply Hlast.
  - rewrite Ha, Hd, Hs. repeat split.
    intros Hn. rewrite <- (app_nil_r (transient_events _ _ _ _)).
    now apply Hlast.
Qed.

(** C2, where the code departs from it. When every one of the
    [retryCount] attempts ends in a transport error (the transport hands
    back no response), the call panics with a nil dereference and no
    "max retry count exceeded" error is returned. On a client whose logger
    is set the call makes exactly [retryCount] attempts and then panics on
    the nil [resp] in [defer resp.Body.Close()]; on a client whose logger
    is nil the panic comes with the first line that is logged, after one
    attempt. *)
Theorem CallWithRetry_transport_errors_panic (v : Target) :
  NewRequest c endpoint method opt = Returns (Ok req) ->
  (forall i, (i < Z.to_nat (RetryCount (Options_ c)))%nat ->
             exists e, transport i req = (None, Some e)) ->
  exists w' : World,
    run (CallWithRetry transport c endpoint method opt) (init_world v)
    = (Panics NilDereference, w') /\
    attempts (trace w')
    = match Logger_ (Options_ c) with
      | Some _ => Z.to_nat (RetryCount (Options_ c))
      | None => Nat.min 1 (Z.to_nat (RetryCount (Options_ c)))
      end.
Proof.
  intros Hreq Ht.
  set (n := Z.to_nat (RetryCount (Options_ c))) in *.
  assert (Htr : forall i, (i < n)%nat -> transient (transport i req) = true).
  { intros i Hi. now destruct (Ht i Hi) as [e ->]. }
  destruct (Logger_ (Options_ c)) as [logger |] eqn:Hlog.
  - assert (Hset : Logger_ (Options_ c) <> None) by now rewrite Hlog.
    rewrite (CallWithRetry_all_transient transport c endpoint method opt req
               Hreq Hset)
      by (intros i Hi; apply Htr; simpl in Hi; fold n in Hi; lia).
    cbn [init_world calls]. fold n.
    assert (Hlast : resp_after transport req 0 n None = None).
    { destruct n as [|m]; [reflexivity |]. simpl.
      destruct (Ht m) as [e ->]; [lia | reflexivity]. }
    rewrite Hlast. eexists. split; [reflexivity |].
    cbn [after_transient init_world trace calls app].
    now destruct (transient_events_counts transport req 0 n) as (-> & _).
  - subst n. destruct (Z.to_nat (RetryCount (Options_ c))) as [|m] eqn:En.
    + rewrite (CallWithRetry_no_iteration transport c endpoint method opt _ En).
      eexists. split; reflexivity.
    + rewrite (CallWithRetry_mute_transient transport c endpoint method opt req
                 Hreq _ Hlog)
        by first [lia | apply Htr; simpl; lia].
      eexists. split; reflexivity.
Qed.

(** C3, where the code departs from it. When every one of the
    [retryCount] attempts is answered with a server fault, the body of a
    response that was followed by a retry is never released. On a client
    whose logger is set the call returns the exhaustion error and only the
    body of the last response is released; on a client whose logger is nil
    the call panics with the first line that is logged and no body is
    released. *)
Theorem CallWithRetry_releases_only_last_body (v : Target) (i : nat) (r : Reply) :
  NewRequest c endpoint method opt = Returns (Ok req) ->
  (forall j, (j < Z.to_nat (RetryCount (Options_ c)))%nat ->
             exists rj, transport j req = (Some rj, None) /\
                        500 <= reply_StatusCode rj) ->
  (S i < Z.to_nat (RetryCount (Options_ c)))%nat ->
  transport i req = (Some r, None) ->
  exists w' : World,
    run (CallWithRetry transport c endpoint method opt) (init_world v)
    = (match Logger_ (Options_ c) with
       | Some _ => Returns (None, Some (errors_New "max retry count exceeded"))
       | None => Panics NilDereference
       end, w') /\
    releases i (trace w') = 0%nat /\
    releases (Z.to_nat (RetryCount (Options_ c)) - 1) (trace w')
    = match Logger_ (Options_ c) with Some _ => 1%nat | None => 0%nat end.
Proof.
  intros Hreq Ht Hi Hr.
  set (n := Z.to_nat (RetryCount (Options_ c))) in *.
  assert (Htr : forall j, (j < n)%nat -> transient (transport j req) = true).
  { intros j Hj. destruct (Ht j Hj) as (rj & -> & Hs). simpl.
    now apply Z.leb_le. }
  destruct (Logger_ (Options_ c)) as [logger |] eqn:Hlog.
  - assert (Hset : Logger_ (Options_ c) <> None) by now rewrite Hlog.
    rewrite (CallWithRetry_all_transient transport c endpoint method opt req
               Hreq Hset)
      by (intros j Hj; apply Htr; simpl in Hj; fold n in Hj; lia).
    cbn [init_world calls]. fold n.
    destruct n as [|m]; [lia |].
    cbn [resp_after Nat.add]. destruct (Ht m) as (rm & -> & _); [lia |].
    cbn [fst fmap option_fmap option_map response_of BodyId].
    eexists. split; [reflexivity |]. cbn [init_world trace app].
    destruct (transient_events_counts transport req 0 (S m)) as (_ & _ & Hnone).
    rewrite !releases_app, !Hnone. unfold releases. simpl.
    replace (m - 0)%nat with m by lia. rewrite Nat.eqb_refl.
    destruct (Nat.eqb_spec m i); [lia | auto].
  - rewrite (CallWithRetry_mute_transient transport c endpoint method opt req
               Hreq _ Hlog)
      by first [fold n; lia | apply Htr; simpl; lia].
    eexists. split; [reflexivity |]. split; reflexivity.
Qed.

End RetryExecutorClaims.

(** ** Construction and decoding *)

Section ConstructionAndDecoding.
Context `{GoLib}.

(** C1, where the code departs from it. For every construction call where
    the base address is missing (nil or empty), [NewClient] does not come
    back with an error result: it panics with the error "base url is
    required" and returns nothing. The check stands before the loop over
    the options, so this is the panic whatever the options are, also when
    one of them is nil or would panic itself. It happens before any
    request: whatever the program goes on to do with the client, the world
    is left as it was. *)
Theorem NewClient_missing_base_panics (baseURL : option url.URL)
    (apiKey : option string) (opts : list ClientOption)
    (A : Type) (k : Client -> M A) (w : World) :
  base_missing baseURL ->
  NewClient baseURL apiKey opts
  = Panics (PanicError (errors_New "base url is required")) /\
  ~ returns_normally (NewClient baseURL apiKey opts) /\
  run (lift (NewClient baseURL apiKey opts) ≫= k) w
  = (Panics (PanicError (errors_New "base url is required")), w).
Proof.
  intros Hmiss.
  assert (Hp : NewClient baseURL apiKey opts
               = Panics (PanicError (errors_New "base url is required"))).
  { unfold NewClient. destruct baseURL as [u |]; [| reflexivity].
    simpl in Hmiss. now rewrite Hmiss. }
  split; [exact Hp |]. split; [rewrite Hp; intros [] |].
  rewrite run_bind, Hp. reflexivity.
Qed.

(** C9. For every response whose status is not a success status (2xx),
    [DecodeResponse] returns the status error and leaves the world, and so
    the caller's target, as it was: the target is written only after the
    status check has succeeded. *)
Theorem DecodeResponse_rejected_status_keeps_target (resp : Response)
    (w : World) :
  ~ (200 <= StatusCode resp < 300) ->
  run (DecodeResponse resp) w
  = (Returns (Some (status_error (StatusCode resp)
                      (json_ErrorPayload (BodyData resp)))), w).
Proof.
  intros Hs. rewrite DecodeResponse_run. unfold CheckResponse.
  destruct ((200 <=? StatusCode resp) && (StatusCode resp <? 300)) eqn:E;
    [exfalso; apply Hs; lia | reflexivity].
Qed.

(** The other direction: a call that changed the target had a success
    status. *)
Lemma DecodeResponse_target_written (resp : Response) (w : World) :
  target (snd (run (DecodeResponse resp) w)) <> target w ->
  200 <= StatusCode resp < 300.
Proof.
  rewrite DecodeResponse_run. unfold CheckResponse.
  destruct ((200 <=? StatusCode resp) && (StatusCode resp <? 300)) eqn:E;
    [lia | now intros []].
Qed.

End ConstructionAndDecoding.

(** ** The shape of every run of the loop *)

Section LoopShape.
Context `{GoLib}.
Variable transport : Transport.
Variable c : Client.
Variables endpoint method : string.
Variable opt : option Payload.

#[local] Abbreviation loop := (retry_loop transport c endpoint method opt).

(** When the request cannot be built, the loop sends nothing and is left
    at once. *)
Lemma retry_loop_without_request (n : nat) (resp : option Response) (w : World) :
  (forall req, NewRequest c endpoint method opt <> Returns (Ok req)) ->
  run (loop (S n) resp) w =
  match NewRequest c endpoint method opt with
  | Returns (Err e) => (Returns (LoopReturn (None, Some e)), w)
  | Returns (Ok _) => run (loop (S n) resp) w
  | Panics p => (Panics p, w)
  end.
Proof.
  intros Hno. cbn [retry_loop]. rewrite run_bind. cbn [lift run].
  destruct (NewRequest c endpoint method opt) as [[req | e] | p];
    [now elim (Hno req) | reflexivity | reflexivity].
Qed.

Variable req : http.Request.
Hypothesis Hreq : NewRequest c endpoint method opt = Returns (Ok req).

(** A round trip that is not transient, or any round trip on a client whose
    logger is nil, ends the loop: the request is sent, at most an error is
    logged, and the loop is left by [return] or by a panic. *)
Lemma final_step (n : nat) (resp : option Response) (w : World) :
  transient (transport (calls w) req) = false \/ Logger_ (Options_ c) = None ->
  exists tail : list event,
    trace (snd (run (loop (S n) resp) w)) = (trace w ++ tail)%list /\
    (tail = [EvDo req] \/ exists msg, tail = [EvDo req; EvError msg]) /\
    forall r, fst (run (loop (S n) resp) w) <> Returns (LoopEnd r).
Proof.
  intros Hend.
  destruct (transient (transport (calls w) req)) eqn:Ht.
  { destruct Hend as [Hend | Hmute]; [discriminate |].
    rewrite (mute_transient_step transport c endpoint method opt req Hreq n resp
               w Hmute Ht).
    cbn [snd fst trace].
    eexists. split; [reflexivity |].
    split; [now left | intros r0; discriminate]. }
  clear Hend.
  destruct (transport (calls w) req) as [reply [err |]] eqn:Et;
    [now destruct reply |].
  destruct reply as [r |].
  - simpl in Ht. apply Z.leb_gt in Ht.
    rewrite (decoding_step transport c endpoint method opt req Hreq n resp w r
               Et Ht).
    match goal with |- context [run (DecodeResponse ?x) ?w1] =>
      pose proof (DecodeResponse_trace x w1) as Hd;
      destruct (run (DecodeResponse x) w1) as [[[err |] | p] w'] end;
      [destruct (Logger_ (Options_ c)) | |];
      cbn [snd fst trace] in *; rewrite Hd, <- ?app_assoc.
    + eexists. split; [reflexivity |].
      split; [right; eauto | intros r0; discriminate].
    + eexists. split; [reflexivity |].
      split; [now left | intros r0; discriminate].
    + eexists. split; [reflexivity |].
      split; [now left | intros r0; discriminate].
    + eexists. split; [reflexivity |].
      split; [now left | intros r0; discriminate].
  - assert (Hrun : run (loop (S n) resp) w =
                   (Panics NilDereference,
                    {| calls := S (calls w);
                       trace := (trace w ++ [EvDo req])%list;
                       target := target w |})).
    { cbn [retry_loop]. rewrite run_bind, Hreq. cbn [lift run].
      rewrite run_bind. unfold Do at 1. cbn [run]. rewrite Et.
      rewrite run_bind. reflexivity. }
    rewrite Hrun. cbn [snd fst trace].
    eexists. split; [reflexivity |].
    split; [now left | intros r0; discriminate].
Qed.

(** Every run of the loop: [k] transient iterations, then either the
    condition of the loop ends it ([k = n]) or one more round trip does. *)
Lemma retry_loop_shape (n : nat) (resp : option Response) (w : World) :
  exists (k : nat) (tail : list event),
    trace (snd (run (loop n resp) w))
    = (trace w ++ transient_events transport req (calls w) k ++ tail)%list /\
    ((k = n /\ tail = [] /\
      exists r, fst (run (loop n resp) w) = Returns (LoopEnd r)) \/
     ((k < n)%nat /\
      (tail = [EvDo req] \/ exists msg, tail = [EvDo req; EvError msg]) /\
      forall r, fst (run (loop n resp) w) <> Returns (LoopEnd r))).
Proof.
  revert resp w. induction n as [|n IH]; intros resp w.
  - exists 0%nat, []. split; [simpl; now rewrite app_nil_r |].
    left. repeat split. now exists resp.
  - destruct (Logger_ (Options_ c)) as [logger |] eqn:Hlog.
    2:{ destruct (final_step n resp w (or_intror Hlog))
          as (tail & Htr & Htail & Hno).
        exists 0%nat, tail. split; [exact Htr |].
        right. split; [lia | auto]. }
    assert (Hlog' : Logger_ (Options_ c) <> None) by congruence.
    destruct (transient (transport (calls w) req)) eqn:Ht.
    + rewrite (transient_step transport c endpoint method opt req Hreq Hlog'
                 n resp w Ht).
      match goal with |- context [run (loop n ?r) ?w1] =>
        destruct (IH r w1) as (k & tail & Htr & Hcase) end.
      exists (S k), tail. split.
      * rewrite Htr. cbn [trace calls]. rewrite transient_events_S.
        now rewrite <- !app_assoc.
      * destruct Hcase as [(-> & -> & Hend) | (Hk & Htail & Hno)].
        -- left. auto.
        -- right. split; [lia | auto].
    + destruct (final_step n resp w (or_introl Ht))
        as (tail & Htr & Htail & Hno).
      exists 0%nat, tail. split; [exact Htr |].
      right. split; [lia | auto].
Qed.

End LoopShape.

(** ** Every call: requests, delays and exits *)

Section EveryCall.
Context `{GoLib}.
Variable transport : Transport.
Variable c : Client.
Variables endpoint method : string.
Variable opt : option Payload.

#[local] Abbreviation call := (CallWithRetry transport c endpoint method opt).
#[local] Abbreviation retries := (Z.to_nat (RetryCount (Options_ c))).

(** What the exit of the function adds to the trace of the loop. *)
Lemma CallWithRetry_after_loop (w : World) :
  run call w =
  match run (retry_loop transport c endpoint method opt retries None) w with
  | (Returns (LoopReturn v), w') => (Returns v, w')
  | (Returns (LoopEnd (Some last)), w') =>
      (Returns (None, Some (errors_New "max retry count exceeded")),
       {| calls := calls w';
          trace := (trace w' ++ [EvClose (BodyId last)])%list;
          target := target w' |})
  | (Returns (LoopEnd None), w') => (Panics NilDereference, w')
  | (Panics p, w') => (Panics p, w')
  end.
Proof.
  unfold CallWithRetry. rewrite run_bind.
  destruct (run (retry_loop transport c endpoint method opt retries None) w)
    as [[[v | [last |]] | p] w']; reflexivity.
Qed.

(** Every call whose request can be built: [k] transient attempts, each
    followed by its log line and a delay, and then nothing, the release of
    the last body, or one more attempt. *)
Lemma CallWithRetry_shape (req : http.Request) (w : World) :
  NewRequest c endpoint method opt = Returns (Ok req) ->
  exists (k : nat) (tail : list event),
    trace (snd (run call w))
    = (trace w ++ transient_events transport req (calls w) k ++ tail)%list /\
    (k <= retries)%nat /\
    (tail = [] \/ (exists b, tail = [EvClose b]) \/
     ((k < retries)%nat /\
      (tail = [EvDo req] \/ exists msg, tail = [EvDo req; EvError msg]))).
Proof.
  intros Hreq. rewrite CallWithRetry_after_loop.
  destruct (retry_loop_shape transport c endpoint method opt req Hreq
              retries None w) as (k & tail & Htr & Hcase).
  destruct (run (retry_loop transport c endpoint method opt retries None) w)
    as [[[v | [last |]] | p] w'] eqn:Er; cbn [snd fst trace] in *;
    destruct Hcase as [(Hk & -> & r & Hend) | (Hk & Htail & Hno)];
    try discriminate Hend; try (now elim (Hno (Some last)));
    try (now elim (Hno None)).
  - exists k, tail. rewrite Htr. split; [reflexivity |]. split; [lia | auto].
  - exists k, [EvClose (BodyId last)]. rewrite Htr, app_nil_r, <- app_assoc.
    split; [reflexivity |]. split; [lia | eauto].
  - exists k, []. rewrite Htr. split; [reflexivity |]. split; [lia | auto].
  - exists k, tail. rewrite Htr. split; [reflexivity |]. split; [lia | auto].
Qed.

(** A call whose request cannot be built leaves the trace as it was. *)
Lemma CallWithRetry_without_request (w : World) :
  (forall req, NewRequest c endpoint method opt <> Returns (Ok req)) ->
  trace (snd (run call w)) = trace w.
Proof.
  intros Hno. rewrite CallWithRetry_after_loop.
  destruct retries as [|n]; [reflexivity |].
  rewrite (retry_loop_without_request transport c endpoint method opt n None w
             Hno).
  destruct (NewRequest c endpoint method opt) as [[req | e] | p];
    [now elim (Hno req) | reflexivity | reflexivity].
Qed.

(** The requests and the time slept of a call stay within the retry
    count. *)
Lemma CallWithRetry_budget (v : Target) :
  let t := trace (snd (run call (init_world v))) in
  (attempts t <= retries)%nat /\
  total_sleep t <= time.Second * 2 * Z.of_nat retries.
Proof.
  destruct (NewRequest c endpoint method opt) as [[req | e] | p] eqn:Hreq.
  - destruct (CallWithRetry_shape req (init_world v) Hreq)
      as (k & tail & -> & Hk & Htail).
    cbn [init_world trace calls app].
    destruct (transient_events_counts transport req 0 k) as (Ha & _ & _).
    rewrite total_sleep_app, attempts_app, total_sleep_transient_events, Ha.
    unfold time.Second.
    destruct Htail as [-> | [[b ->] | [Hlt [-> | [msg ->]]]]];
      unfold attempts; simpl; split; lia.
  - cbv zeta. rewrite CallWithRetry_without_request; [| congruence].
    unfold attempts, time.Second. simpl. split; lia.
  - cbv zeta. rewrite CallWithRetry_without_request; [| congruence].
    unfold attempts, time.Second. simpl. split; lia.
Qed.

(** X2. In every call, whatever the transport answers, each delay lasts
    exactly two seconds: the time slept is two seconds times the number of
    delays. The number of delays is the number of attempts or one less. *)
Theorem CallWithRetry_delay_length_and_count (v : Target) :
  let t := trace (snd (run call (init_world v))) in
  total_sleep t = time.Second * 2 * Z.of_nat (delays t) /\
  (delays t <= attempts t <= delays t + 1)%nat.
Proof.
  destruct (NewRequest c endpoint method opt) as [[req | e] | p] eqn:Hreq.
  - destruct (CallWithRetry_shape req (init_world v) Hreq)
      as (k & tail & -> & _ & Htail).
    cbn [init_world trace calls app].
    destruct (transient_events_counts transport req 0 k) as (Ha & Hd & _).
    rewrite total_sleep_app, delays_app, attempts_app,
      total_sleep_transient_events, Ha, Hd.
    destruct Htail as [-> | [[b ->] | [_ [-> | [msg ->]]]]];
      unfold attempts, delays; simpl; split; lia.
  - cbv zeta. rewrite CallWithRetry_without_request; [| congruence].
    simpl. split; [reflexivity | unfold attempts, delays; simpl; lia].
  - cbv zeta. rewrite CallWithRetry_without_request; [| congruence].
    simpl. split; [reflexivity | unfold attempts, delays; simpl; lia].
Qed.

(** X4. A request that cannot be built ends the call at once: with a
    positive retry count, the error of [NewRequest] is returned with a nil
    response, and nothing is sent, logged or waited for. *)
Theorem CallWithRetry_build_failure_aborts (e : error) (w : World) :
  0 < RetryCount (Options_ c) ->
  NewRequest c endpoint method opt = Returns (Err e) ->
  run call w = (Returns (None, Some e), w).
Proof.
  intros Hn He. rewrite CallWithRetry_after_loop.
  destruct retries as [|n] eqn:En; [lia |].
  rewrite (retry_loop_without_request transport c endpoint method opt n None w)
    by (intros req; congruence).
  now rewrite He.
Qed.

(** X5. With a retry count of zero or less the loop body never runs: the
    call builds no request, sends nothing, and panics on the nil [resp]
    in [defer resp.Body.Close()]. *)
Theorem CallWithRetry_no_retries_panics (w : World) :
  RetryCount (Options_ c) <= 0 ->
  run call w = (Panics NilDereference, w).
Proof.
  intros Hn. rewrite CallWithRetry_after_loop.
  replace retries with 0%nat by lia. reflexivity.
Qed.

End EveryCall.

Section CallOutcomes.
Context `{GoLib}.
Variable transport : Transport.
Variable c : Client.
Variables endpoint method : string.
Variable opt : option Payload.
Variable req : http.Request.

#[local] Abbreviation call := (CallWithRetry transport c endpoint method opt).
#[local] Abbreviation retries := (Z.to_nat (RetryCount (Options_ c))).

(** X3. When [k] transient failures, with [k] below the retry count, are
    followed by a response with a status below 500 that passes the status
    check and whose body decodes, the call returns that response with a nil
    error after exactly [k + 1] attempts and [k] delays, and the caller's
    target holds the decoded value. The failures are logged, so for
    [k > 0] the logger of the client must not be nil. *)
Theorem CallWithRetry_success_after_transient_failures
    (v v' : Target) (k : nat) (r : Reply) :
  NewRequest c endpoint method opt = Returns (Ok req) ->
  ((0 < k)%nat -> Logger_ (Options_ c) <> None) ->
  (k < retries)%nat ->
  (forall i, (i < k)%nat -> transient (transport i req) = true) ->
  transport k req = (Some r, None) ->
  reply_StatusCode r < 500 ->
  CheckResponse (response_of k r) = None ->
  json_Decode (reply_Body r) v = (v', None) ->
  exists w' : World,
    run call (init_world v) = (Returns (Some (response_of k r), None), w') /\
    target w' = v' /\
    attempts (trace w') = S k /\
    delays (trace w') = k.
Proof.
  intros Hreq Hlog Hk Hpre Hr Hlow Hcheck Hdec.
  unfold CallWithRetry. rewrite run_bind.
  replace retries with (k + S (retries - S k))%nat by lia.
  assert (Hrun : run (retry_loop transport c endpoint method opt
                        (k + S (retries - S k)) None) (init_world v)
                 = run (retry_loop transport c endpoint method opt
                          (S (retries - S k))
                          (resp_after transport req 0 k None))
                       (after_transient transport req k (init_world v))).
  { destruct k as [|k'].
    - now rewrite after_transient_0.
    - apply (transient_run transport c endpoint method opt req Hreq);
        [apply Hlog; lia |].
      intros i Hi. apply Hpre. simpl in Hi. lia. }
  rewrite Hrun. clear Hrun.
  rewrite (decoding_step transport c endpoint method opt req Hreq _ _ _ r)
    by assumption.
  cbn [after_transient init_world calls trace target Nat.add app].
  rewrite DecodeResponse_run, Hcheck.
  change (BodyData (response_of k r)) with (reply_Body r).
  cbn [target]. rewrite Hdec. cbn [fst snd].
  eexists. split; [reflexivity |]. cbn [target trace].
  destruct (transient_events_counts transport req 0 k) as (Ha & Hd & _).
  rewrite attempts_app, delays_app, Ha, Hd.
  unfold attempts, delays. simpl. repeat split; lia.
Qed.

(** X7. On a client whose logger is not nil, when every one of the
    [retryCount] attempts is transient, the call makes exactly [retryCount]
    attempts and never writes the caller's target. It returns the error "max retry count exceeded", with a nil
    response, exactly when there was an attempt and the last one produced a
    response, whose body it then releases once; in every other case it
    panics on the nil [resp]. *)
Theorem CallWithRetry_exhaustion_outcome (v : Target) :
  NewRequest c endpoint method opt = Returns (Ok req) ->
  Logger_ (Options_ c) <> None ->
  (forall i, (i < retries)%nat -> transient (transport i req) = true) ->
  let o := fst (run call (init_world v)) in
  let w' := snd (run call (init_world v)) in
  target w' = v /\
  attempts (trace w') = retries /\
  (o = Returns (None, Some (errors_New "max retry count exceeded")) <->
   (0 < retries)%nat /\ fst (transport (retries - 1)%nat req) <> None) /\
  (o = Panics NilDereference <->
   retries = 0%nat \/ fst (transport (retries - 1)%nat req) = None) /\
  (o = Returns (None, Some (errors_New "max retry count exceeded")) ->
   releases (retries - 1)%nat (trace w') = 1%nat).
Proof.
  intros Hreq Hlog Ht.
  rewrite (CallWithRetry_all_transient transport c endpoint method opt req Hreq
             Hlog)
    by (intros i Hi; apply Ht; simpl in Hi; lia).
  cbn [init_world calls trace target].
  destruct (transient_events_counts transport req 0 retries) as (Ha & _ & Hr).
  destruct retries as [|n] eqn:En.
  - cbn [resp_after fst snd after_transient init_world calls trace target app].
    rewrite Ha. repeat split; try discriminate; try tauto; try lia.
  - cbn [resp_after Nat.add]. replace (S n - 1)%nat with n by lia.
    destruct (fst (transport n req)) as [r |] eqn:Er;
      cbn [fmap option_fmap option_map fst snd after_transient init_world
           calls trace target app response_of BodyId].
    + rewrite attempts_app, releases_app, Ha, Hr. unfold attempts, releases.
      simpl. rewrite Nat.eqb_refl. simpl.
      repeat split; try discriminate; try lia; try tauto.
      all: try (intros [Hz | Hn]; [lia | discriminate]).
    + rewrite Ha. repeat split; try discriminate; try tauto; try lia.
      all: try (intros [_ Hn]; now elim Hn).
Qed.

(** X15. On a client whose logger is nil, a first attempt that fails
    transiently makes the call panic with a nil dereference in the call of
    the logger: one request was sent, nothing was logged, no delay was
    applied and no further attempt is made. *)
Theorem CallWithRetry_nil_logger_panics (v : Target) :
  NewRequest c endpoint method opt = Returns (Ok req) ->
  Logger_ (Options_ c) = None ->
  0 < RetryCount (Options_ c) ->
  transient (transport 0%nat req) = true ->
  run call (init_world v)
  = (Panics NilDereference, {| calls := 1; trace := [EvDo req]; target := v |}).
Proof.
  intros Hreq Hmute Hn Ht.
  now rewrite (CallWithRetry_mute_transient transport c endpoint method opt req
                 Hreq (init_world v) Hmute) by first [lia | exact Ht].
Qed.

End CallOutcomes.

Section NilBase.
Context `{GoLib}.

(** X6. [SetBaseURL] does not repeat the check of [NewClient]: after
    [SetBaseURL(nil)] every [NewRequest] panics on the nil base address, and
    every call panics before anything is sent, logged or waited for,
    whatever the retry count. *)
Theorem SetBaseURL_nil_panics (transport : Transport) (c : Client)
    (endpoint method : string) (opt : option Payload) (w : World) :
  NewRequest (SetBaseURL None c) endpoint method opt = Panics NilDereference /\
  run (CallWithRetry transport (SetBaseURL None c) endpoint method opt) w
  = (Panics NilDereference, w).
Proof.
  split; [reflexivity |].
  rewrite CallWithRetry_after_loop.
  destruct (Z.to_nat (RetryCount (Options_ (SetBaseURL None c)))) as [|n];
    [reflexivity |].
  rewrite retry_loop_without_request by (intros req; discriminate).
  reflexivity.
Qed.

End NilBase.

(** ** Construction with options *)

Lemma apply_option_in_step (c c' : Client) (opt : ClientOption) :
  apply_option c opt = Returns c' -> timeout_in_step c'.
Proof.
  unfold timeout_in_step, apply_option.
  destruct opt as [f |]; [| discriminate]. simpl.
  destruct (f c) as [c1 | p]; [| discriminate]. simpl.
  intros [= <-].
  destruct (Z.eqb_spec (Timeout (Options_ c1)) 0) as [E | E]; simpl;
    [intros Hne; now elim Hne | reflexivity].
Qed.

Lemma apply_options_in_step (opts : list ClientOption) (c c' : Client) :
  timeout_in_step c -> apply_options opts c = Returns c' ->
  timeout_in_step c'.
Proof.
  revert c. induction opts as [|opt opts IH]; intros c Hc.
  - now intros [= <-].
  - simpl. destruct (apply_option c opt) as [c1 | p] eqn:E; [| discriminate].
    simpl. apply IH. exact (apply_option_in_step c c1 opt E).
Qed.

Lemma apply_options_app (opts more : list ClientOption) (c : Client) :
  apply_options (opts ++ more) c
  = apply_options opts c ≫= apply_options more.
Proof.
  revert c. induction opts as [|opt opts IH]; intros c; [reflexivity |].
  simpl. destruct (apply_option c opt) as [c1 | p]; [| reflexivity].
  simpl. apply IH.
Qed.

(** [NewClient] with a base address that is present. *)
Lemma NewClient_present (baseURL : option url.URL) (apiKey : option string)
    (opts : list ClientOption) (c : Client) :
  NewClient baseURL apiKey opts = Returns c ->
  apply_options opts
    {| ApiKey := apiKey; BaseURL := baseURL; Options_ := DefaultOptions;
       client := {| http_Timeout := 10 * time.Second |} |}
  = Returns c /\
  forall more, NewClient baseURL apiKey more
               = apply_options more
                   {| ApiKey := apiKey; BaseURL := baseURL;
                      Options_ := DefaultOptions;
                      client := {| http_Timeout := 10 * time.Second |} |}.
Proof.
  unfold NewClient.
  destruct (match baseURL with
            | Some u => String.eqb (url.URL_String u) ""
            | None => true
            end); [discriminate |].
  auto.
Qed.

(** X8. Whenever [NewClient] returns a client, whatever the options did to
    it, the timeout of the HTTP client in it equals the timeout of the
    options if the latter is not zero. *)
Theorem NewClient_timeout_follows_options (baseURL : option url.URL)
    (apiKey : option string) (opts : list ClientOption) (c : Client) :
  NewClient baseURL apiKey opts = Returns c ->
  Timeout (Options_ c) <> 0 ->
  http_Timeout (client c) = Timeout (Options_ c).
Proof.
  intros [Hc _]%NewClient_present.
  refine (apply_options_in_step opts _ c _ Hc).
  unfold timeout_in_step. simpl. lia.
Qed.

(** X9. A timeout of zero does not reach the HTTP client: when the last
    option returns and leaves the timeout of the options at zero,
    [NewClient] returns the client exactly as that option left it, so the
    HTTP client keeps the timeout it had before (ten seconds when no
    option changed it). *)
Theorem NewClient_zero_timeout_not_applied (baseURL : option url.URL)
    (apiKey : option string) (opts : list ClientOption)
    (f : Client -> outcome Client) (c c' : Client) :
  NewClient baseURL apiKey opts = Returns c ->
  f c = Returns c' ->
  Timeout (Options_ c') = 0 ->
  NewClient baseURL apiKey (opts ++ [Some f]) = Returns c'.
Proof.
  intros [Hc Hall]%NewClient_present Hf Hzero.
  rewrite Hall, apply_options_app, Hc. simpl.
  unfold apply_option. simpl. rewrite Hf. simpl. now rewrite Hzero.
Qed.

(** X14. A nil option makes [NewClient] panic: when the options before it
    have returned, the call of the nil function value panics with a nil
    dereference, the options after it are not applied and no client is
    returned. *)
Theorem NewClient_nil_option_panics (baseURL : option url.URL)
    (apiKey : option string) (opts more : list ClientOption) (c : Client) :
  NewClient baseURL apiKey opts = Returns c ->
  NewClient baseURL apiKey (opts ++ None :: more) = Panics NilDereference.
Proof.
  intros [Hc Hall]%NewClient_present.
  now rewrite Hall, apply_options_app, Hc.
Qed.

(** X13. A client built by [NewClient] without options has the default
    budget: whatever the transport answers, one call sends at most three
    requests and sleeps at most six seconds in total. *)
Theorem NewClient_default_call_budget `{GoLib} (base : url.URL)
    (apiKey : option string) (c : Client) (transport : Transport)
    (endpoint method : string) (opt : option Payload) (v : Target) :
  NewClient (Some base) apiKey [] = Returns c ->
  let t := trace (snd (run (CallWithRetry transport c endpoint method opt)
                         (init_world v))) in
  (attempts t <= 3)%nat /\ total_sleep t <= 6 * time.Second.
Proof.
  intros [Hc _]%NewClient_present. simpl in Hc. injection Hc as <-.
  pose proof (CallWithRetry_budget transport
                {| ApiKey := apiKey; BaseURL := Some base;
                   Options_ := DefaultOptions;
                   client := {| http_Timeout := 10 * time.Second |} |}
                endpoint method opt v) as Hb.
  cbv zeta in Hb |- *.
  change (Z.to_nat (RetryCount (Options_ _))) with 3%nat in Hb.
  unfold time.Second in *. lia.
Qed.

(** ** Further facts about built requests *)

Section MoreRequestFacts.
Context `{GoLib}.

Lemma http_NewRequest_Method (method urlStr : string) (body : option string)
    (r : http.Request) :
  http.NewRequest method urlStr body = Ok r ->
  http.Method r = if String.eqb method "" then "GET" else method.
Proof.
  unfold http.NewRequest.
  destruct (negb _); [discriminate |].
  destruct (url.Parse urlStr) as [u | e]; [| discriminate].
  now intros [= <-].
Qed.

(** X10. The rule that GET carries no body looks at the method text only:
    for the empty method and a non-nil payload, the request that is built
    has method GET (what [http.NewRequest] makes of the empty method) and
    carries the JSON text of the payload as its body. *)
Theorem NewRequest_empty_method_GET_with_body (c : Client) (endpoint : string)
    (p : Payload) (req : http.Request) :
  NewRequest c endpoint "" (Some p) = Returns (Ok req) ->
  http.Method req = "GET" /\
  exists json : string,
    json_Marshal p = Ok json /\
    http.Body req = Some (json +:+ String "010" "").
Proof.
  intros (base & u & u' & bodyBuf & r & _ & _ & _ & Hb & Hr & ->)%NewRequest_inv.
  change (String.eqb "" http.MethodGet) with false in Hb. simpl in Hb.
  unfold json_Encode in Hb.
  destruct (json_Marshal p) as [json | e]; [| discriminate].
  simpl in Hb. injection Hb as <-.
  pose proof (http_NewRequest_Method _ _ _ _ Hr) as Hm.
  apply http_NewRequest_inv in Hr as (_ & Hbody & _).
  destruct (finished_request (ApiKey c) r) as [_ ->].
  split; [destruct (ApiKey c); exact Hm |].
  exists json. now split.
Qed.

(** X11. A request built by [NewRequest] carries no header besides
    Content-Type and X-Blnk-Key. *)
Theorem NewRequest_no_other_header (c : Client) (endpoint method : string)
    (opt : option Payload) (req : http.Request) (key : string) :
  NewRequest c endpoint method opt = Returns (Ok req) ->
  key <> "Content-Type" -> key <> "X-Blnk-Key" ->
  http.Header_ req !! key = None.
Proof.
  intros (base & u & u' & bodyBuf & r & _ & _ & _ & _ & Hr & ->)%NewRequest_inv
    Hc Hk.
  apply http_NewRequest_inv in Hr as (_ & _ & Hh).
  destruct (ApiKey c) as [k |]; simpl; unfold http.Header_Add; rewrite Hh.
  - rewrite !lookup_insert_ne by congruence. apply lookup_empty.
  - rewrite lookup_insert_ne by congruence. apply lookup_empty.
Qed.

End MoreRequestFacts.

(** ** What a call hands back *)

Section ReturnedPair.
Context `{GoLib}.
Variable transport : Transport.
Variable c : Client.
Variables endpoint method : string.
Variable opt : option Payload.

Lemma retry_loop_returned_pair (n : nat) (r0 : option Response) (w w' : World)
    (resp : option Response) (err : option error) :
  run (retry_loop transport c endpoint method opt n r0) w
  = (Returns (LoopReturn (resp, err)), w') ->
  (err = None -> resp <> None) /\
  (forall r, resp = Some r -> StatusCode r < 500).
Proof.
  revert r0 w. induction n as [|n IH]; intros r0 w; [discriminate |].
  cbn [retry_loop]. rewrite run_bind. cbn [lift run].
  destruct (NewRequest c endpoint method opt) as [[req | e] | p];
    [| intros [= <- <- <-]; split; discriminate | discriminate].
  rewrite run_bind. unfold Do at 1. cbn [run].
  destruct (transport (calls w) req) as [reply [e |]].
  - rewrite run_bind, run_Logger_Info.
    destruct (Logger_ (Options_ c)); [| discriminate].
    repeat (rewrite run_bind; cbn [time_Sleep emit run calls trace target]).
    apply IH.
  - rewrite run_bind.
    destruct reply as [r |];
      cbn [fmap option_fmap option_map lift deref run]; [| discriminate].
    destruct (Z.leb_spec 500 (StatusCode (response_of (calls w) r)))
      as [Hge | Hlt].
    + rewrite run_bind, run_Logger_Error.
      destruct (Logger_ (Options_ c)); [| discriminate].
      repeat (rewrite run_bind; cbn [time_Sleep emit run calls trace target]).
      apply IH.
    + rewrite run_bind.
      match goal with |- context [run (DecodeResponse ?x) ?w1] =>
        destruct (run (DecodeResponse x) w1) as [[[e |] | p] w1'] end;
        rewrite ?run_bind, ?run_Logger_Error;
        destruct (Logger_ (Options_ c));
        cbn [emit run mret M_mret M_ret]; try discriminate;
        intros [= <- <- <-]; (split; [discriminate | now intros r1 [= <-]]).
Qed.

(** X12. Whatever the transport answers, the pair a call returns is
    well formed: a nil error comes with a response, and a response that is
    handed back has a status below 500; the response of a server fault is
    never returned to the caller. *)
Theorem CallWithRetry_returned_pair (w w' : World) (resp : option Response)
    (err : option error) :
  run (CallWithRetry transport c endpoint method opt) w
  = (Returns (resp, err), w') ->
  (err = None -> resp <> None) /\
  (forall r, resp = Some r -> StatusCode r < 500).
Proof.
  rewrite CallWithRetry_after_loop.
  destruct (run (retry_loop transport c endpoint method opt _ None) w)
    as [[[v | [last |]] | p] w1] eqn:Er.
  - intros [= -> <-]. exact (retry_loop_returned_pair _ _ _ _ _ _ Er).
  - intros [= <- <- <-]. split; discriminate.
  - discriminate.
  - discriminate.
Qed.

End ReturnedPair.
(** ** The claims at concrete inputs *)

#[local] Existing Instance Sample.lib.

Lemma NewClient_missing_base_panics_witness :
  base_missing None /\
  NewClient None (Some "secret") [sample_panicking; None]
  = Panics (PanicError (errors_New "base url is required")) /\
  ~ returns_normally (NewClient None (Some "secret") [sample_panicking; None]) /\
  run (lift (NewClient None (Some "secret") [sample_panicking; None])
       ≫= fun c => CallWithRetry Sample.not_found c "ledgers" "GET" None)
      (init_world blank)
  = (Panics (PanicError (errors_New "base url is required")), init_world blank).
Proof.
  split; [exact I |].
  apply (NewClient_missing_base_panics None (Some "secret")
           [sample_panicking; None] _
           (fun c => CallWithRetry Sample.not_found c "ledgers" "GET" None)
           (init_world blank)).
  exact I.
Defined.

Lemma CallWithRetry_transport_errors_panic_witness :
  exists w' : World,
    run (CallWithRetry Sample.refusing (Sample.client_with 3) "ledgers"
           "DELETE" None) (init_world blank)
    = (Panics NilDereference, w') /\
    attempts (trace w') = 3%nat.
Proof.
  apply (CallWithRetry_transport_errors_panic Sample.refusing
           (Sample.client_with 3) "ledgers" "DELETE" None sample_bare blank).
  - vm_compute. reflexivity.
  - intros i _. eexists. reflexivity.
Defined.

Lemma CallWithRetry_releases_only_last_body_witness :
  exists w' : World,
    run (CallWithRetry Sample.unavailable (Sample.client_with 2) "ledgers"
           "DELETE" None) (init_world blank)
    = (Returns (None, Some (errors_New "max retry count exceeded")), w') /\
    releases 0 (trace w') = 0%nat /\
    releases 1 (trace w') = 1%nat.
Proof.
  apply (CallWithRetry_releases_only_last_body Sample.unavailable
           (Sample.client_with 2) "ledgers" "DELETE" None sample_bare blank
           0%nat (Sample.reply 503 "503 Service Unavailable" "")).
  - vm_compute. reflexivity.
  - intros j _. eexists. split; [reflexivity |]. simpl. lia.
  - vm_compute. lia.
  - reflexivity.
Defined.

(** C4 as stated fails twice. A response with status 503 is a response
    with a non-success status, and the status check rejects it; yet the
    call does not return with it after that attempt: it makes a second
    attempt and returns the exhaustion error without a response. And on a
    client whose logger is nil, a 404 on the first attempt makes the call
    panic in the call of the logger instead of returning. *)
Lemma CallWithRetry_server_fault_retried :
  Sample.unavailable 0%nat sample_bare
  = (Some (Sample.reply 503 "503 Service Unavailable" ""), None) /\
  CheckResponse (response_of 0 (Sample.reply 503 "503 Service Unavailable" ""))
  <> None /\
  fst (run (CallWithRetry Sample.unavailable (Sample.client_with 2) "ledgers"
              "DELETE" None) (init_world blank))
  = Returns (None, Some (errors_New "max retry count exceeded")) /\
  attempts
    (trace (snd (run (CallWithRetry Sample.unavailable (Sample.client_with 2)
                        "ledgers" "DELETE" None) (init_world blank))))
  = 2%nat /\
  NewClient (Some Sample.base) None [sample_WithLogger None]
  = Returns sample_mute_client /\
  fst (run (CallWithRetry Sample.not_found sample_mute_client "ledgers"
              "DELETE" None) (init_world blank))
  = Panics NilDereference.
Proof. vm_compute. repeat split. discriminate. Qed.

Lemma CallWithRetry_permanent_failure_not_retried_witness :
  exists (err : error) (w' : World),
    run (CallWithRetry Sample.not_found (Sample.client_with 3) "ledgers"
           "DELETE" None) (init_world blank)
    = (Returns (Some (response_of 0 (Sample.reply 404 "404 Not Found" "{}")),
                Some err), w') /\
    trace w' = [EvDo sample_bare; EvError (Error err)] /\
    attempts (trace w') = 1%nat.
Proof.
  apply (CallWithRetry_permanent_failure_not_retried Sample.not_found
           (Sample.client_with 3) "ledgers" "DELETE" None sample_bare blank
           0%nat (Sample.reply 404 "404 Not Found" "{}")).
  - vm_compute. reflexivity.
  - discriminate.
  - vm_compute. lia.
  - intros i Hi. lia.
  - reflexivity.
  - simpl. lia.
  - left. simpl. lia.
Defined.

(** C5 as stated fails: with one attempt that meets a server fault, the
    delay after this final attempt is followed by no attempt. *)
Lemma CallWithRetry_delay_after_final_attempt :
  fst (run (CallWithRetry Sample.unavailable (Sample.client_with 1) "ledgers"
              "DELETE" None) (init_world blank))
  = Returns (None, Some (errors_New "max retry count exceeded")) /\
  delay_only_before_attempt
    (trace (snd (run (CallWithRetry Sample.unavailable (Sample.client_with 1)
                        "ledgers" "DELETE" None) (init_world blank))))
  = false.
Proof. vm_compute. split; reflexivity. Qed.

Lemma CallWithRetry_delay_after_every_transient_failure_witness :
  let w' := snd (run (CallWithRetry Sample.unavailable (Sample.client_with 2)
                        "ledgers" "DELETE" None) (init_world blank)) in
  attempts (trace w') = 2%nat /\ delays (trace w') = 2%nat /\
  total_sleep (trace w') = time.Second * 2 * 2 /\
  ((0 < 2)%nat -> delay_only_before_attempt (trace w') = false).
Proof.
  apply (CallWithRetry_delay_after_every_transient_failure Sample.unavailable
           (Sample.client_with 2) "ledgers" "DELETE" None sample_bare blank).
  - vm_compute. reflexivity.
  - discriminate.
  - intros i _. reflexivity.
Defined.

Lemma NewRequest_GET_payload_in_query_witness :
  exists q : Values,
    query_Values sample_fields = Ok q /\
    url.RawQuery (http.URL sample_GET) = url.Encode q /\
    http.Body sample_GET = None /\
    (has_field q -> url.RawQuery (http.URL sample_GET) <> "").
Proof.
  apply (NewRequest_GET_payload_in_query (Sample.client_with 3) "ledgers"
           sample_fields sample_GET).
  vm_compute. reflexivity.
Defined.

Lemma NewRequest_other_method_payload_in_body_witness :
  exists (json : string) (base u : url.URL),
    json_Marshal sample_fields = Ok json /\
    http.Body sample_POST = Some (json +:+ String "010" "") /\
    BaseURL (Sample.client_with 3) = Some base /\
    url.Parse (url.URL_String base +:+ "transactions") = Ok u /\
    url.RawQuery (http.URL sample_POST) = url.RawQuery u.
Proof.
  apply (NewRequest_other_method_payload_in_body (Sample.client_with 3)
           "transactions" "POST" sample_fields sample_POST).
  - discriminate.
  - vm_compute. reflexivity.
Defined.

Lemma NewRequest_headers_witness :
  http.Header_ sample_GET !! "Content-Type" = Some ["application/json"] /\
  http.Header_ sample_GET !! "X-Blnk-Key"
  = (fun key => [key]) <$> ApiKey (Sample.client_with 3).
Proof.
  apply (NewRequest_headers (Sample.client_with 3) "ledgers" "GET"
           (Some sample_fields) sample_GET).
  vm_compute. reflexivity.
Defined.

Lemma DecodeResponse_rejected_status_keeps_target_witness :
  run (DecodeResponse (response_of 0 (Sample.reply 404 "404 Not Found" "{}")))
      (init_world kept)
  = (Returns (Some (status_error 404 (Some "{}"))), init_world kept).
Proof.
  apply (DecodeResponse_rejected_status_keeps_target
           (response_of 0 (Sample.reply 404 "404 Not Found" "{}"))
           (init_world kept)).
  simpl. lia.
Defined.

(** C10 as stated fails: an endpoint that brings its own query leaves a
    query on the request although the payload is nil. *)
Lemma NewRequest_nil_payload_endpoint_query :
  NewRequest (Sample.client_with 3) "ledgers?limit=1" "GET" None
  = Returns (Ok sample_listing) /\
  http.Body sample_listing = None /\
  url.RawQuery (http.URL sample_listing) = "limit=1" /\
  url.RawQuery (http.URL sample_listing) <> "".
Proof. vm_compute. repeat split. discriminate. Qed.

Lemma NewRequest_nil_payload_witness :
  http.Body sample_bare = None /\
  exists base u : url.URL,
    BaseURL (Sample.client_with 3) = Some base /\
    url.Parse (url.URL_String base +:+ "ledgers") = Ok u /\
    url.RawQuery (http.URL sample_bare) = url.RawQuery u /\
    (contains_byte "?" (url.URL_String base +:+ "ledgers") = false ->
     url.RawQuery (http.URL sample_bare) = "").
Proof.
  apply (NewRequest_nil_payload (Sample.client_with 3) "ledgers" "DELETE"
           sample_bare).
  vm_compute. reflexivity.
Defined.

(** ** The further properties at concrete inputs *)

Lemma CallWithRetry_success_after_transient_failures_witness :
  exists w' : World,
    run (CallWithRetry sample_recovering (Sample.client_with 3) "ledgers"
           "DELETE" None) (init_world blank)
    = (Returns (Some (response_of 2 (Sample.reply 200 "200 OK" "{}")), None),
       w') /\
    target w' = "{}" /\
    attempts (trace w') = 3%nat /\
    delays (trace w') = 2%nat.
Proof.
  apply (CallWithRetry_success_after_transient_failures sample_recovering
           (Sample.client_with 3) "ledgers" "DELETE" None sample_bare
           blank "{}" 2%nat (Sample.reply 200 "200 OK" "{}")).
  - vm_compute. reflexivity.
  - intros _. discriminate.
  - vm_compute. lia.
  - intros [|[|i]] Hi; [reflexivity | reflexivity | lia].
  - reflexivity.
  - simpl. lia.
  - reflexivity.
  - reflexivity.
Defined.

Lemma CallWithRetry_build_failure_aborts_witness :
  run (CallWithRetry Sample.refusing (Sample.client_with 3) "ledgers" "NO GO"
         None) (init_world blank)
  = (Returns (None, Some (lib_error "net/http" "invalid method")),
     init_world blank).
Proof.
  apply (CallWithRetry_build_failure_aborts Sample.refusing
           (Sample.client_with 3) "ledgers" "NO GO" None
           (lib_error "net/http" "invalid method") (init_world blank)).
  - vm_compute. reflexivity.
  - vm_compute. reflexivity.
Defined.

Lemma CallWithRetry_no_retries_panics_witness :
  run (CallWithRetry Sample.not_found (Sample.client_with 0) "ledgers" "GET"
         None) (init_world blank)
  = (Panics NilDereference, init_world blank).
Proof.
  apply (CallWithRetry_no_retries_panics Sample.not_found
           (Sample.client_with 0) "ledgers" "GET" None (init_world blank)).
  vm_compute. discriminate.
Defined.

Lemma CallWithRetry_exhaustion_outcome_witness :
  let o := fst (run (CallWithRetry sample_degraded (Sample.client_with 2)
                       "ledgers" "DELETE" None) (init_world blank)) in
  let w' := snd (run (CallWithRetry sample_degraded (Sample.client_with 2)
                        "ledgers" "DELETE" None) (init_world blank)) in
  target w' = blank /\
  attempts (trace w') = Z.to_nat (RetryCount (Options_ (Sample.client_with 2))) /\
  (o = Returns (None, Some (errors_New "max retry count exceeded")) <->
   (0 < Z.to_nat (RetryCount (Options_ (Sample.client_with 2))))%nat /\
   fst (sample_degraded
          (Z.to_nat (RetryCount (Options_ (Sample.client_with 2))) - 1)%nat
          sample_bare) <> None) /\
  (o = Panics NilDereference <->
   Z.to_nat (RetryCount (Options_ (Sample.client_with 2))) = 0%nat \/
   fst (sample_degraded
          (Z.to_nat (RetryCount (Options_ (Sample.client_with 2))) - 1)%nat
          sample_bare) = None) /\
  (o = Returns (None, Some (errors_New "max retry count exceeded")) ->
   releases (Z.to_nat (RetryCount (Options_ (Sample.client_with 2))) - 1)%nat
     (trace w') = 1%nat).
Proof.
  apply (CallWithRetry_exhaustion_outcome sample_degraded
           (Sample.client_with 2) "ledgers" "DELETE" None sample_bare blank).
  - vm_compute. reflexivity.
  - discriminate.
  - intros [|[|i]] Hi; [reflexivity | reflexivity | vm_compute in Hi; lia].
Defined.

Lemma NewClient_timeout_follows_options_witness :
  NewClient (Some Sample.base) (Some "secret")
    [Sample.WithRetryCount 5; sample_WithTimeout (3 * time.Second)]
  = Returns sample_timed_client /\
  http_Timeout (client sample_timed_client)
  = Timeout (Options_ sample_timed_client).
Proof.
  split; [reflexivity |].
  apply (NewClient_timeout_follows_options (Some Sample.base) (Some "secret")
           [Sample.WithRetryCount 5; sample_WithTimeout (3 * time.Second)]).
  - reflexivity.
  - vm_compute. discriminate.
Defined.

Lemma NewClient_zero_timeout_not_applied_witness :
  NewClient (Some Sample.base) (Some "secret")
    ([] ++ [Some (fun c => Returns (set_Timeout 0 c))])
  = Returns (set_Timeout 0 sample_default_client).
Proof.
  apply (NewClient_zero_timeout_not_applied (Some Sample.base) (Some "secret")
           [] (fun c => Returns (set_Timeout 0 c)) sample_default_client).
  - reflexivity.
  - reflexivity.
  - reflexivity.
Defined.

Lemma NewClient_nil_option_panics_witness :
  NewClient (Some Sample.base) (Some "secret")
    ([Sample.WithRetryCount 5] ++ [None; sample_WithTimeout 0])
  = Panics NilDereference.
Proof.
  apply (NewClient_nil_option_panics (Some Sample.base) (Some "secret")
           [Sample.WithRetryCount 5] [sample_WithTimeout 0]
           (Sample.client_with 5)).
  reflexivity.
Defined.

Lemma NewRequest_empty_method_GET_with_body_witness :
  http.Method sample_empty_method = "GET" /\
  exists json : string,
    json_Marshal sample_fields = Ok json /\
    http.Body sample_empty_method = Some (json +:+ String "010" "").
Proof.
  apply (NewRequest_empty_method_GET_with_body (Sample.client_with 3)
           "transactions" sample_fields sample_empty_method).
  vm_compute. reflexivity.
Defined.

Lemma NewRequest_no_other_header_witness :
  http.Header_ sample_GET !! "Authorization" = None.
Proof.
  apply (NewRequest_no_other_header (Sample.client_with 3) "ledgers" "GET"
           (Some sample_fields) sample_GET "Authorization").
  - vm_compute. reflexivity.
  - discriminate.
  - discriminate.
Defined.

Lemma CallWithRetry_returned_pair_witness :
  ((None : option error) = None ->
   Some (response_of 2 (Sample.reply 200 "200 OK" "{}")) <> None) /\
  (forall r,
     Some (response_of 2 (Sample.reply 200 "200 OK" "{}")) = Some r ->
     StatusCode r < 500).
Proof.
  apply (CallWithRetry_returned_pair sample_recovering (Sample.client_with 3)
           "ledgers" "DELETE" None (init_world blank)
           (snd (run (CallWithRetry sample_recovering (Sample.client_with 3)
                        "ledgers" "DELETE" None) (init_world blank)))
           (Some (response_of 2 (Sample.reply 200 "200 OK" "{}")))
           None).
  vm_compute. reflexivity.
Defined.

Lemma NewClient_default_call_budget_witness :
  let t := trace (snd (run (CallWithRetry Sample.unavailable
                              sample_default_client "ledgers" "GET" None)
                         (init_world blank))) in
  (attempts t <= 3)%nat /\ total_sleep t <= 6 * time.Second.
Proof.
  apply (NewClient_default_call_budget Sample.base (Some "secret")
           sample_default_client Sample.unavailable "ledgers" "GET" None
           blank).
  reflexivity.
Defined.

Lemma CallWithRetry_nil_logger_panics_witness :
  run (CallWithRetry Sample.unavailable sample_mute_client "ledgers" "DELETE"
         None) (init_world blank)
  = (Panics NilDereference,
     {| calls := 1;
        trace := [EvDo (built (NewRequest sample_mute_client "ledgers" "DELETE"
                                 None))];
        target := blank |}).
Proof.
  apply (CallWithRetry_nil_logger_panics Sample.unavailable sample_mute_client
           "ledgers" "DELETE" None
           (built (NewRequest sample_mute_client "ledgers" "DELETE" None))
           blank).
  - vm_compute. reflexivity.
  - reflexivity.
  - vm_compute. reflexivity.
  - reflexivity.
Defined.
